(** * Pomodoro tracker: session engine, task registry and playlist

    A shallow embedding of the [PomodoroTracker] React component.  Every
    [useState] cell of the component is a field of the record [App]; an
    event handler is a function from the rendered [App] (the values its
    closure captured) to the next [App] together with the list of
    effects it performed on the outside world (alerts, notifications,
    calls on the YouTube player).

    Numbers are JavaScript numbers holding integers and are modelled in
    [Z]; the remainder operator [%] is [Z.rem].  Strings are sequences of
    code units; the model keeps the code units below 256, one [ascii]
    each. *)

From Stdlib Require Import ZArith List String Ascii Bool Lia QArith.
From Stdlib Require Import DecimalString.
Import ListNotations.

Local Open Scope string_scope.
Local Open Scope Z_scope.
Local Open Scope bool_scope.
Local Open Scope list_scope.

(* ================================================================= *)
(** ** JavaScript strings *)

Module JsString.

(** Truthiness of a string: only the empty string is falsy. *)
Definition truthy (s : string) : bool :=
  match s with
  | EmptyString => false
  | String _ _ => true
  end.

(** [WhiteSpace] and [LineTerminator] code units below 256, the ones
    [String.prototype.trim] strips: TAB, LF, VT, FF, CR, SP, NBSP. *)
Definition isWhiteSpace (c : ascii) : bool :=
  let n := nat_of_ascii c in
  (Nat.leb 9 n && Nat.leb n 13) || Nat.eqb n 32 || Nat.eqb n 160.

Fixpoint trimStart (s : string) : string :=
  match s with
  | EmptyString => EmptyString
  | String c r => if isWhiteSpace c then trimStart r else s
  end.

Fixpoint trimEnd (s : string) : string :=
  match s with
  | EmptyString => EmptyString
  | String c r =>
      match trimEnd r with
      | EmptyString => if isWhiteSpace c then EmptyString else String c EmptyString
      | r' => String c r'
      end
  end.

(** [s.trim()] *)
Definition trim (s : string) : string := trimEnd (trimStart s).

(** Every code unit of [s] is white space. *)
Fixpoint allWhiteSpace (s : string) : bool :=
  match s with
  | EmptyString => true
  | String c r => isWhiteSpace c && allWhiteSpace r
  end.

(** If [s] starts with [p], what follows [p]. *)
Fixpoint afterPrefix (p s : string) : option string :=
  match p, s with
  | EmptyString, _ => Some s
  | String a p', String b s' => if Ascii.eqb a b then afterPrefix p' s' else None
  | String _ _, EmptyString => None
  end.

(** The character class [[^&\n?#]]. *)
Definition idChar (c : ascii) : bool :=
  negb (Ascii.eqb c "&" || Ascii.eqb c "010" || Ascii.eqb c "?" || Ascii.eqb c "#")%char.

(** Greedy [[^&\n?#]*] at the head of [s]. *)
Fixpoint idRun (s : string) : string :=
  match s with
  | EmptyString => EmptyString
  | String c r => if idChar c then String c (idRun r) else EmptyString
  end.

(** The regular expression [(?:a1|a2|...)([^&\n?#]+)] anchored at the
    head of [s]: the alternatives are literal strings tried in order;
    the group is greedy and nothing follows it, so the first
    alternative followed by a non-empty run wins and the capture is
    the whole run. *)
Fixpoint matchHere (alts : list string) (s : string) : option string :=
  match alts with
  | [] => None
  | a :: alts' =>
      match afterPrefix a s with
      | Some rest =>
          match idRun rest with
          | EmptyString => matchHere alts' s
          | cap => Some cap
          end
      | None => matchHere alts' s
      end
  end.

(** [s.match(/(?:a1|a2|...)([^&\n?#]+)/)]: the leftmost position at
    which the expression matches; the result is capture group 1. *)
Fixpoint matchGroup1 (alts : list string) (s : string) : option string :=
  match matchHere alts s with
  | Some cap => Some cap
  | None =>
      match s with
      | EmptyString => None
      | String _ r => matchGroup1 alts r
      end
  end.

End JsString.

(* ================================================================= *)
(** ** Data model *)

Record TodoItem := mkTodo {
  todo_id : string;
  title : string;
  estimatedPomodoros : Z;
  completedPomodoros : Z;
  isCompleted : bool
}.

Record PomodoroTimer := mkTimer {
  minutes : Z;
  seconds : Z;
  isActive : bool;
  isBreak : bool;
  currentTaskId : option string   (* string | null *)
}.

Record Settings := mkSettings {
  workDuration : Z;
  breakDuration : Z;
  notificationsEnabled : bool;
  musicEnabled : bool;
  musicVolume : Q
}.

Record YouTubeTrack := mkTrack {
  track_id : string;
  track_title : string;
  videoId : string;
  url : string
}.

(** [Partial<Settings>]: an absent key is [None]. *)
Record PartialSettings := mkPartialSettings {
  p_workDuration : option Z;
  p_breakDuration : option Z;
  p_notificationsEnabled : option bool;
  p_musicEnabled : option bool;
  p_musicVolume : option Q
}.

(** The object [JSON.parse] gives back for the timer slot; a key of the
    object may be missing, and [currentTaskId] may be present and null. *)
Record PartialTimer := mkPartialTimer {
  p_minutes : option Z;
  p_seconds : option Z;
  p_isActive : option bool;
  p_isBreak : option bool;
  p_currentTaskId : option (option string)
}.

(** What the load effect finds in one storage slot. *)
Inductive Slot (A : Type) :=
| NoEntry                (* getItem returned null (or an empty string) *)
| Malformed              (* JSON.parse threw *)
| Parsed (value : A).
Arguments NoEntry {A}.
Arguments Malformed {A}.
Arguments Parsed {A} value.

(** Effects a handler performs outside React state. *)
Inductive Effect :=
| Alert (message : string)
| Notification (ntitle body : string)
| LoadVideoById (vid : string)
| PlayMusicAfter (ms : Z).

(** The state cells of the component that the handlers below read or
    write. *)
Record App := mkApp {
  todos : list TodoItem;
  newTodoTitle : string;
  newTodoPomodoros : Z;
  settings : Settings;
  timer : PomodoroTimer;
  currentTrack : Z;
  isPlaying : bool;
  youtubePlayer : bool;          (* the player handle is non-null *)
  youtubePlaylist : list YouTubeTrack;
  newYoutubeUrl : string
}.

Definition initialSettings : Settings :=
  mkSettings 25 5 true false (1 # 2).

Definition initialTimer : PomodoroTimer :=
  mkTimer 25 0 false false None.

Definition initialApp : App :=
  mkApp [] "" 1 initialSettings initialTimer 0 false false [] "".

(** Functional record updates, one per [setX] of the component. *)
Definition setTodos (v : list TodoItem) (a : App) : App :=
  mkApp v (newTodoTitle a) (newTodoPomodoros a) (settings a) (timer a)
        (currentTrack a) (isPlaying a) (youtubePlayer a) (youtubePlaylist a)
        (newYoutubeUrl a).

Definition setNewTodoTitle (v : string) (a : App) : App :=
  mkApp (todos a) v (newTodoPomodoros a) (settings a) (timer a)
        (currentTrack a) (isPlaying a) (youtubePlayer a) (youtubePlaylist a)
        (newYoutubeUrl a).

Definition setNewTodoPomodoros (v : Z) (a : App) : App :=
  mkApp (todos a) (newTodoTitle a) v (settings a) (timer a)
        (currentTrack a) (isPlaying a) (youtubePlayer a) (youtubePlaylist a)
        (newYoutubeUrl a).

Definition setSettings (v : Settings) (a : App) : App :=
  mkApp (todos a) (newTodoTitle a) (newTodoPomodoros a) v (timer a)
        (currentTrack a) (isPlaying a) (youtubePlayer a) (youtubePlaylist a)
        (newYoutubeUrl a).

Definition setTimer (v : PomodoroTimer) (a : App) : App :=
  mkApp (todos a) (newTodoTitle a) (newTodoPomodoros a) (settings a) v
        (currentTrack a) (isPlaying a) (youtubePlayer a) (youtubePlaylist a)
        (newYoutubeUrl a).

Definition setCurrentTrack (v : Z) (a : App) : App :=
  mkApp (todos a) (newTodoTitle a) (newTodoPomodoros a) (settings a) (timer a)
        v (isPlaying a) (youtubePlayer a) (youtubePlaylist a)
        (newYoutubeUrl a).

Definition setYoutubePlaylist (v : list YouTubeTrack) (a : App) : App :=
  mkApp (todos a) (newTodoTitle a) (newTodoPomodoros a) (settings a) (timer a)
        (currentTrack a) (isPlaying a) (youtubePlayer a) v
        (newYoutubeUrl a).

Definition setNewYoutubeUrl (v : string) (a : App) : App :=
  mkApp (todos a) (newTodoTitle a) (newTodoPomodoros a) (settings a) (timer a)
        (currentTrack a) (isPlaying a) (youtubePlayer a) (youtubePlaylist a)
        v.

(** [x === id] for [x : string | null] and a string [id]. *)
Definition idIs (x : option string) (id : string) : bool :=
  match x with
  | Some s => String.eqb s id
  | None => false
  end.

(** Truthiness of [string | null]. *)
Definition truthyId (x : option string) : bool :=
  match x with
  | Some s => JsString.truthy s
  | None => false
  end.

(* ================================================================= *)
(** ** Session engine *)

(** [showNotification]: [granted] stands for
    ['Notification' in window && Notification.permission === 'granted']. *)
Definition showNotification (s : Settings) (granted : bool)
    (ntitle body : string) : list Effect :=
  if notificationsEnabled s && granted then [Notification ntitle body] else [].

(** The updater given to [setTodos] when a focus session ends. *)
Definition completePomodoro (taskId : option string) (todo : TodoItem) : TodoItem :=
  if idIs taskId (todo_id todo)
  then mkTodo (todo_id todo) (title todo) (estimatedPomodoros todo)
              (completedPomodoros todo + 1) (isCompleted todo)
  else todo.

(** The updater the interval callback gives to [setTimer].  [s] is the
    [settings] value captured by the closure of the timer effect.  The
    result is the next timer, the next todo list (after the nested
    [setTodos]) and the notifications shown. *)
Definition tick (s : Settings) (granted : bool)
    (prevTimer : PomodoroTimer) (prevTodos : list TodoItem)
    : PomodoroTimer * list TodoItem * list Effect :=
  if seconds prevTimer >? 0 then
    (mkTimer (minutes prevTimer) (seconds prevTimer - 1) (isActive prevTimer)
             (isBreak prevTimer) (currentTaskId prevTimer),
     prevTodos, [])
  else if minutes prevTimer >? 0 then
    (mkTimer (minutes prevTimer - 1) 59 (isActive prevTimer)
             (isBreak prevTimer) (currentTaskId prevTimer),
     prevTodos, [])
  else
    (* Timer finished *)
    let '(todos', shown) :=
      if negb (isBreak prevTimer) && truthyId (currentTaskId prevTimer) then
        (map (completePomodoro (currentTaskId prevTimer)) prevTodos,
         showNotification s granted "Pomodoro Complete!" "Great work! Time for a break.")
      else if isBreak prevTimer then
        (prevTodos,
         showNotification s granted "Break Over!" "Ready to get back to work?")
      else (prevTodos, [])
    in
    (* Switch between work and break *)
    let newIsBreak := negb (isBreak prevTimer) in
    let newMinutes := if newIsBreak then breakDuration s else workDuration s in
    (mkTimer newMinutes 0 false newIsBreak (currentTaskId prevTimer),
     todos', shown).

Definition tickTimer s granted t td : PomodoroTimer := fst (fst (tick s granted t td)).
Definition tickTodos s granted t td : list TodoItem := snd (fst (tick s granted t td)).
Definition tickEffects s granted t td : list Effect := snd (tick s granted t td).

(** One period of the interval of the timer effect: the interval exists
    only while [timer.isActive]. *)
Definition intervalTick (s : Settings) (granted : bool) (a : App) : App * list Effect :=
  if isActive (timer a) then
    let '(t', td', shown) := tick s granted (timer a) (todos a) in
    (setTimer t' (setTodos td' a), shown)
  else (a, []).

(** [n] periods of the interval. *)
Fixpoint intervalTicks (n : nat) (s : Settings) (granted : bool) (a : App) : App :=
  match n with
  | O => a
  | S k => intervalTicks k s granted (fst (intervalTick s granted a))
  end.


Definition startPomodoroForTask (taskId : string) (a : App) : App :=
  setTimer (mkTimer (workDuration (settings a)) 0 true false (Some taskId)) a.

Definition toggleTimer (a : App) : App :=
  let prev := timer a in
  setTimer (mkTimer (minutes prev) (seconds prev) (negb (isActive prev))
                    (isBreak prev) (currentTaskId prev)) a.

Definition resetTimer (a : App) : App :=
  setTimer (mkTimer (if isBreak (timer a) then breakDuration (settings a)
                     else workDuration (settings a))
                    0 false (isBreak (timer a)) (currentTaskId (timer a))) a.

Definition switchMode (a : App) : App :=
  let newIsBreak := negb (isBreak (timer a)) in
  let newMinutes := if newIsBreak then breakDuration (settings a)
                    else workDuration (settings a) in
  setTimer (mkTimer newMinutes 0 false newIsBreak
                    (if newIsBreak then None else currentTaskId (timer a))) a.

(** The switch-mode button: [onClick={switchMode} disabled={timer.isActive}].
    A disabled button dispatches no click. *)
Definition clickSwitchMode (a : App) : App :=
  if isActive (timer a) then a else switchMode a.

(** The "Start Pomodoro" button of a task row:
    [disabled={timer.isActive}]. *)
Definition clickStartPomodoro (taskId : string) (a : App) : App :=
  if isActive (timer a) then a else startPomodoroForTask taskId a.

(* ================================================================= *)
(** ** Settings store *)

(** [x ?? d] *)
Definition orElse {A} (x : option A) (d : A) : A :=
  match x with
  | Some v => v
  | None => d
  end.

(** [{ ...prev, ...newSettings }] *)
Definition mergeSettings (prev : Settings) (n : PartialSettings) : Settings :=
  mkSettings (orElse (p_workDuration n) (workDuration prev))
             (orElse (p_breakDuration n) (breakDuration prev))
             (orElse (p_notificationsEnabled n) (notificationsEnabled prev))
             (orElse (p_musicEnabled n) (musicEnabled prev))
             (orElse (p_musicVolume n) (musicVolume prev)).

Definition updateSettings (newSettings : PartialSettings) (a : App) : App :=
  let a1 := setSettings (mergeSettings (settings a) newSettings) a in
  (* If timer is not active, update the timer duration immediately *)
  if negb (isActive (timer a)) then
    let prev := timer a1 in
    setTimer (mkTimer (if isBreak prev
                       then orElse (p_breakDuration newSettings) (breakDuration (settings a))
                       else orElse (p_workDuration newSettings) (workDuration (settings a)))
                      (seconds prev) (isActive prev) (isBreak prev)
                      (currentTaskId prev)) a1
  else a1.

(** The partial object the work-duration input passes. *)
Definition onlyWorkDuration (v : Z) : PartialSettings :=
  mkPartialSettings (Some v) None None None None.

(* ================================================================= *)
(** ** Task registry *)

(** [addTodo]; [now] is [Date.now().toString()]. *)
Definition addTodo (now : string) (a : App) : App :=
  if JsString.truthy (JsString.trim (newTodoTitle a)) then
    let newTodo := mkTodo now (JsString.trim (newTodoTitle a))
                          (newTodoPomodoros a) 0 false in
    setNewTodoPomodoros 1
      (setNewTodoTitle "" (setTodos (todos a ++ [newTodo]) a))
  else a.

(** [create(title, estimate)]: the two inputs are typed, then the form
    is submitted. *)
Definition create (now ttl : string) (estimate : Z) (a : App) : App :=
  addTodo now (setNewTodoPomodoros estimate (setNewTodoTitle ttl a)).

Definition clearedTimer (prev : PomodoroTimer) : PomodoroTimer :=
  mkTimer (minutes prev) (seconds prev) false (isBreak prev) None.

Definition deleteTodo (id : string) (a : App) : App :=
  let a1 := setTodos
              (filter (fun todo => negb (String.eqb (todo_id todo) id)) (todos a)) a in
  if idIs (currentTaskId (timer a)) id
  then setTimer (clearedTimer (timer a1)) a1
  else a1.

Definition toggleTodoComplete (id : string) (a : App) : App :=
  setTodos
    (map (fun todo =>
            if String.eqb (todo_id todo) id
            then mkTodo (todo_id todo) (title todo) (estimatedPomodoros todo)
                        (completedPomodoros todo) (negb (isCompleted todo))
            else todo) (todos a)) a.

(** [clearAllTasks]; [confirmed] is the answer of [window.confirm]. *)
Definition clearAllTasks (confirmed : bool) (a : App) : App :=
  match todos a with
  | [] => a
  | _ :: _ =>
      if confirmed then
        let a1 := setTodos [] a in
        if truthyId (currentTaskId (timer a))
        then setTimer (clearedTimer (timer a1)) a1
        else a1
      else a
  end.

(* ================================================================= *)
(** ** Playback controller *)

(** [extractVideoId]: the three patterns, tried in order. *)
Definition patterns : list (list string) :=
  [ ["youtube.com/watch?v="; "youtu.be/"];
    ["youtube.com/embed/"];
    ["youtube.com/v/"] ].

Fixpoint firstMatch (ps : list (list string)) (u : string) : option string :=
  match ps with
  | [] => None
  | p :: ps' =>
      match JsString.matchGroup1 p u with
      | Some cap => Some cap
      | None => firstMatch ps' u
      end
  end.

Definition extractVideoId (u : string) : option string := firstMatch patterns u.

(** [addYouTubeTrack]; [now] is [Date.now().toString()]. *)
Definition addYouTubeTrack (now : string) (a : App) : App * list Effect :=
  if negb (JsString.truthy (JsString.trim (newYoutubeUrl a))) then (a, [])
  else
    let vid := extractVideoId (newYoutubeUrl a) in
    if negb (truthyId vid) then
      (a, [Alert "Please enter a valid YouTube URL"])
    else
      let v := orElse vid "" in
      let newTrack := mkTrack now (String.append "YouTube Video " v) v
                              (newYoutubeUrl a) in
      (setNewYoutubeUrl "" (setYoutubePlaylist (youtubePlaylist a ++ [newTrack]) a),
       []).

(** [addTrack(url)]: the URL is typed, then submitted. *)
Definition addTrack (now u : string) (a : App) : App * list Effect :=
  addYouTubeTrack now (setNewYoutubeUrl u a).

Definition removeTrack (trackId : string) (a : App) : App :=
  let a1 := setYoutubePlaylist
              (filter (fun track => negb (String.eqb (track_id track) trackId))
                      (youtubePlaylist a)) a in
  let len := Z.of_nat (List.length (youtubePlaylist a)) in
  if len <=? 1 then setCurrentTrack 0 a1
  else if currentTrack a >=? len - 1 then setCurrentTrack 0 a1
  else a1.

(** [playlist[i]]: undefined outside the array. *)
Definition trackAt (l : list YouTubeTrack) (i : Z) : option YouTubeTrack :=
  if i <? 0 then None else nth_error l (Z.to_nat i).

(** The calls on the player after the index moved to [newTrack]. *)
Definition loadTrack (newTrack : Z) (a : App) : list Effect :=
  if youtubePlayer a then
    match trackAt (youtubePlaylist a) newTrack with
    | Some tr =>
        LoadVideoById (videoId tr)
          :: (if isPlaying a then [PlayMusicAfter 500] else [])
    | None => []
    end
  else [].

Definition nextTrack (a : App) : App * list Effect :=
  let len := Z.of_nat (List.length (youtubePlaylist a)) in
  if len =? 0 then (a, [])
  else
    let newTrack := Z.rem (currentTrack a + 1) len in
    (setCurrentTrack newTrack a, loadTrack newTrack a).

Definition previousTrack (a : App) : App * list Effect :=
  let len := Z.of_nat (List.length (youtubePlaylist a)) in
  if len =? 0 then (a, [])
  else
    let newTrack := if currentTrack a =? 0 then len - 1 else currentTrack a - 1 in
    (setCurrentTrack newTrack a, loadTrack newTrack a).

(* ================================================================= *)
(** ** Persistence adapter *)

(** [{ ...prev, ...parsedTimer, isActive: false }] *)
Definition restoreTimer (prev : PomodoroTimer) (parsedTimer : PartialTimer)
    : PomodoroTimer :=
  mkTimer (orElse (p_minutes parsedTimer) (minutes prev))
          (orElse (p_seconds parsedTimer) (seconds prev))
          false (* Don't auto-resume timer *)
          (orElse (p_isBreak parsedTimer) (isBreak prev))
          (orElse (p_currentTaskId parsedTimer) (currentTaskId prev)).

(** [JSON.parse(JSON.stringify(timer))]: every key is present. *)
Definition snapshot (t : PomodoroTimer) : PartialTimer :=
  mkPartialTimer (Some (minutes t)) (Some (seconds t)) (Some (isActive t))
                 (Some (isBreak t)) (Some (currentTaskId t)).

(** The timer branch of the load effect. *)
Definition loadTimer (savedTimer : Slot PartialTimer) (a : App) : App :=
  match savedTimer with
  | Parsed parsedTimer => setTimer (restoreTimer (timer a) parsedTimer) a
  | Malformed => a
  | NoEntry => a
  end.

Definition loadSlot {A} (saved : Slot A) (set : A -> App -> App) (a : App) : App :=
  match saved with
  | Parsed v => set v a
  | Malformed => a
  | NoEntry => a
  end.

(** The load effect, run once on mount. *)
Definition load (savedTodos : Slot (list TodoItem)) (savedSettings : Slot Settings)
    (savedTimer : Slot PartialTimer) (savedPlaylist : Slot (list YouTubeTrack))
    (a : App) : App :=
  loadSlot savedPlaylist setYoutubePlaylist
    (loadTimer savedTimer
       (loadSlot savedSettings setSettings
          (loadSlot savedTodos setTodos a))).

(* ================================================================= *)
(** ** Vocabulary of the statements *)

(** Neither component of the remaining time is below zero. *)
Definition nonNegative (t : PomodoroTimer) : Prop :=
  0 <= minutes t /\ 0 <= seconds t.

(** The remaining time in seconds. *)
Definition remainingSeconds (t : PomodoroTimer) : Z :=
  60 * minutes t + seconds t.

(** [todo] with one more completed pomodoro. *)
Definition completedOnce (todo : TodoItem) : TodoItem :=
  mkTodo (todo_id todo) (title todo) (estimatedPomodoros todo)
         (completedPomodoros todo + 1) (isCompleted todo).

(* ================================================================= *)
(** ** Sample states *)

(** The track [addYouTubeTrack] builds for the identifier [abc123]. *)
Definition abc123Track (now u : string) : YouTubeTrack :=
  mkTrack now "YouTube Video abc123" "abc123" u.

Definition runningApp : App :=
  startPomodoroForTask "1700000000000" initialApp.

Definition twoTasks : App :=
  setTimer (mkTimer 7 30 true false (Some "t1"))
    (setTodos [mkTodo "t1" "write" 2 0 false; mkTodo "t2" "read" 1 0 false]
       initialApp).

(** A focus session started with the default 25 minutes and paused
    at 12:34. *)
Definition pausedMidSession : App :=
  setTimer (mkTimer 12 34 false false (Some "1700000000000")) initialApp.

Definition oneTrack : App :=
  setCurrentTrack 4
    (setYoutubePlaylist [abc123Track "1700000000001" "https://youtu.be/abc123"]
       initialApp).

Definition threeTracks : App :=
  setCurrentTrack 2
    (setYoutubePlaylist
       [abc123Track "1" "https://youtu.be/abc123";
        abc123Track "2" "https://www.youtube.com/embed/abc123";
        abc123Track "3" "https://www.youtube.com/watch?v=abc123&t=5"]
       initialApp).

(** A registry of two tasks and a work duration of one minute. *)
Definition oneMinuteApp : App :=
  updateSettings (onlyWorkDuration 1)
    (setTodos [mkTodo "t1" "write" 2 0 false; mkTodo "t2" "read" 1 0 false]
       initialApp).

(* ================================================================= *)
(** ** Music controls *)

Definition setIsPlaying (v : bool) (a : App) : App :=
  mkApp (todos a) (newTodoTitle a) (newTodoPomodoros a) (settings a) (timer a)
        (currentTrack a) v (youtubePlayer a) (youtubePlaylist a)
        (newYoutubeUrl a).

(** Calls on the player made by the music controls. *)
Inductive PlayerCall :=
| PlayVideo
| PauseVideo.

Definition playMusic (a : App) : App * list PlayerCall :=
  if youtubePlayer a && musicEnabled (settings a)
     && (Z.of_nat (List.length (youtubePlaylist a)) >? 0)
  then (setIsPlaying true a, [PlayVideo])
  else (a, []).

Definition pauseMusic (a : App) : App * list PlayerCall :=
  if youtubePlayer a then (setIsPlaying false a, [PauseVideo]) else (a, []).

Definition toggleMusic (a : App) : App * list PlayerCall :=
  if isPlaying a then pauseMusic a else playMusic a.

(** The auto-play/pause effect, run when one of its dependencies
    changed. *)
Definition autoPlay (a : App) : App * list PlayerCall :=
  if musicEnabled (settings a) && isActive (timer a) && negb (isBreak (timer a))
     && (Z.of_nat (List.length (youtubePlaylist a)) >? 0)
  then playMusic a
  else pauseMusic a.

(* ================================================================= *)
(** ** Editing a task *)

(** The three state cells of the row editor. *)
Record Editing := mkEditing {
  editingTaskId : option string;
  editingTitle : string;
  editingPomodoros : Z
}.

Definition startEditingTask (task : TodoItem) : Editing :=
  mkEditing (Some (todo_id task)) (title task) (estimatedPomodoros task).

Definition cancelTaskEdit : Editing := mkEditing None "" 1.

Definition saveTaskEdit (e : Editing) (a : App) : App * Editing :=
  if negb (truthyId (editingTaskId e))
     || negb (JsString.truthy (JsString.trim (editingTitle e)))
  then (a, e)
  else
    (setTodos
       (map (fun todo =>
               if idIs (editingTaskId e) (todo_id todo)
               then mkTodo (todo_id todo) (JsString.trim (editingTitle e))
                           (editingPomodoros e) (completedPomodoros todo)
                           (isCompleted todo)
               else todo) (todos a)) a,
     cancelTaskEdit).

(* ================================================================= *)
(** ** Local storage *)

(** The four keys of the component in [localStorage]. *)
Record Storage := mkStorage {
  pomodoro_todos : Slot (list TodoItem);
  pomodoro_settings : Slot Settings;
  pomodoro_timer : Slot PartialTimer;
  youtube_playlist : Slot (list YouTubeTrack)
}.

(** The four save effects: each writes [JSON.stringify] of its cell;
    read back, the text parses to the value written. *)
Definition save (a : App) : Storage :=
  mkStorage (Parsed (todos a)) (Parsed (settings a))
            (Parsed (snapshot (timer a))) (Parsed (youtubePlaylist a)).

(** Mounting the component over a storage: the initial state, then the
    load effect. *)
Definition mount (st : Storage) : App :=
  load (pomodoro_todos st) (pomodoro_settings st) (pomodoro_timer st)
       (youtube_playlist st) initialApp.

(* ================================================================= *)
(** ** Events *)

(** The calls the rendered controls make on the handlers.  A row button
    passes the id of its row; [StartPomodoro i] is the button of row [i]
    of the task list, [RemoveTrackRow i] the one of row [i] of the
    playlist. *)
Inductive Event :=
| Tick (captured : Settings) (granted : bool)
| TypeTitle (v : string)
| TypeEstimate (v : Z)
| AddTodo (now : string)
| DeleteTodo (id : string)
| ToggleTodoComplete (id : string)
| SaveTaskEdit (e : Editing)
| ClearAllTasks (confirmed : bool)
| StartPomodoro (row : nat)
| ToggleTimer
| ResetTimer
| SwitchMode
| UpdateSettings (n : PartialSettings)
| TypeUrl (v : string)
| AddYouTubeTrack (now : string)
| RemoveTrackRow (row : nat)
| NextTrack
| PreviousTrack
| ToggleMusic
| AutoPlay.

Definition handle (e : Event) (a : App) : App :=
  match e with
  | Tick captured granted => fst (intervalTick captured granted a)
  | TypeTitle v => setNewTodoTitle v a
  | TypeEstimate v => setNewTodoPomodoros v a
  | AddTodo now => addTodo now a
  | DeleteTodo id => deleteTodo id a
  | ToggleTodoComplete id => toggleTodoComplete id a
  | SaveTaskEdit e => fst (saveTaskEdit e a)
  | ClearAllTasks confirmed => clearAllTasks confirmed a
  | StartPomodoro row =>
      match nth_error (todos a) row with
      | Some todo =>
          if isCompleted todo then a else clickStartPomodoro (todo_id todo) a
      | None => a
      end
  | ToggleTimer => toggleTimer a
  | ResetTimer => resetTimer a
  | SwitchMode => clickSwitchMode a
  | UpdateSettings n => updateSettings n a
  | TypeUrl v => setNewYoutubeUrl v a
  | AddYouTubeTrack now => fst (addYouTubeTrack now a)
  | RemoveTrackRow row =>
      match nth_error (youtubePlaylist a) row with
      | Some track => removeTrack (track_id track) a
      | None => a
      end
  | NextTrack => fst (nextTrack a)
  | PreviousTrack => fst (previousTrack a)
  | ToggleMusic => fst (toggleMusic a)
  | AutoPlay => fst (autoPlay a)
  end.

(** The state after a sequence of events. *)
Fixpoint run (es : list Event) (a : App) : App :=
  match es with
  | [] => a
  | e :: es' => run es' (handle e a)
  end.

(** [n] presses of the next-track button. *)
Fixpoint nextTracks (n : nat) (a : App) : App :=
  match n with
  | O => a
  | S k => nextTracks k (fst (nextTrack a))
  end.

(** Every code unit of [s] is in the class [[^&\n?#]]. *)
Fixpoint allIdChars (s : string) : bool :=
  match s with
  | EmptyString => true
  | String c r => JsString.idChar c && allIdChars r
  end.

(** [s] holds the code unit [c]. *)
Fixpoint hasChar (c : ascii) (s : string) : bool :=
  match s with
  | EmptyString => false
  | String d r => Ascii.eqb c d || hasChar c r
  end.

(** The index is 0 or points inside a playlist of [len] tracks. *)
Definition indexOk (i : Z) (len : nat) : Prop :=
  i = 0 \/ 0 < i < Z.of_nat len.

(* ================================================================= *)
(** ** Display *)

(** [n.toString()] for an integer written without exponent (below
    10^21 in absolute value): the decimal digits, after a minus sign
    when negative. *)
Definition numberToString (n : Z) : string :=
  NilZero.string_of_int (Z.to_int n).

(** [count] copies of [c]. *)
Fixpoint repeatChar (count : nat) (c : ascii) : string :=
  match count with
  | O => EmptyString
  | S k => String c (repeatChar k c)
  end.

(** [s.padStart(targetLength, fill)] for a one-character [fill]. *)
Definition padStart (targetLength : nat) (fill : ascii) (s : string) : string :=
  String.append (repeatChar (targetLength - String.length s) fill) s.

Definition formatTime (m sec : Z) : string :=
  String.append (padStart 2 "0" (numberToString m))
    (String.append ":" (padStart 2 "0" (numberToString sec))).

(** The character of the decimal digit [d]. *)
Definition digitChar (d : Z) : ascii := ascii_of_nat (48 + Z.to_nat d).

(** The five characters [MM:SS]. *)
Definition clockFace (m sec : Z) : string :=
  String (digitChar (m / 10)) (String (digitChar (m mod 10))
    (String ":" (String (digitChar (sec / 10)) (String (digitChar (sec mod 10))
       EmptyString)))).

(** [formatTime] and [clockFace] agree on [m] and [sec]. *)
Definition faceAgrees (m sec : nat) : bool :=
  String.eqb (formatTime (Z.of_nat m) (Z.of_nat sec))
             (clockFace (Z.of_nat m) (Z.of_nat sec)).

(* ================================================================= *)
(** ** Invariants *)

(** The events of the playlist and music controls. *)
Definition isPlaylistEvent (e : Event) : bool :=
  match e with
  | TypeUrl _ | AddYouTubeTrack _ | RemoveTrackRow _
  | NextTrack | PreviousTrack | ToggleMusic | AutoPlay => true
  | _ => false
  end.

(** The seconds are those of a clock. *)
Definition clockOk (a : App) : Prop := 0 <= seconds (timer a) <= 59.

(** The task reference of the session is null or the id of a task of the
    registry, and no task has the empty id. *)
Definition taskRefOk (a : App) : Prop :=
  ~ In "" (map todo_id (todos a)) /\
  forall id, currentTaskId (timer a) = Some id -> In id (map todo_id (todos a)).

(** A task as the handlers write it: the title trimmed and not empty, the
    completed count not negative. *)
Definition todoOk (todo : TodoItem) : Prop :=
  JsString.trim (title todo) = title todo /\ title todo <> "" /\
  0 <= completedPomodoros todo.

(** A track as [addYouTubeTrack] writes it. *)
Definition trackOk (track : YouTubeTrack) : Prop :=
  extractVideoId (url track) = Some (videoId track) /\
  track_title track = String.append "YouTube Video " (videoId track).

(** The durations in [s] are not negative. *)
Definition durationsOk (s : Settings) : Prop :=
  0 <= workDuration s /\ 0 <= breakDuration s.

(** The events that carry durations carry non-negative ones. *)
Definition carriesDurationsOk (e : Event) : Prop :=
  match e with
  | Tick captured _ => durationsOk captured
  | UpdateSettings n =>
      0 <= orElse (p_workDuration n) 0 /\ 0 <= orElse (p_breakDuration n) 0
  | _ => True
  end.

(** [Date.now().toString()] is not the empty string. *)
Definition stampOk (e : Event) : Prop :=
  match e with
  | AddTodo now => now <> ""
  | _ => True
  end.

(** [s] is empty or starts with a code unit that is not white space. *)
Definition startsClean (s : string) : Prop :=
  match s with
  | EmptyString => True
  | String c _ => JsString.isWhiteSpace c = false
  end.

(* ================================================================= *)
(** ** Properties of the string helpers *)

Lemma trimEnd_empty_iff (s : string) :
  JsString.trimEnd s = "" <-> JsString.allWhiteSpace s = true.
Proof.
  induction s as [|c r IH]; simpl.
  - split; reflexivity.
  - destruct (JsString.trimEnd r) eqn:Er.
    + destruct (JsString.isWhiteSpace c); simpl.
      * split; intros _; [apply IH|]; reflexivity.
      * split; discriminate.
    + split; [discriminate|].
      intros H. apply andb_true_iff in H as [_ H].
      apply IH in H. discriminate.
Qed.

Lemma allWhiteSpace_trimStart (s : string) :
  JsString.allWhiteSpace (JsString.trimStart s) = JsString.allWhiteSpace s.
Proof.
  induction s as [|c r IH]; simpl; [reflexivity|].
  destruct (JsString.isWhiteSpace c) eqn:E; simpl.
  - exact IH.
  - rewrite E. reflexivity.
Qed.

Lemma trim_empty_iff (s : string) :
  JsString.trim s = "" <-> JsString.allWhiteSpace s = true.
Proof.
  unfold JsString.trim.
  rewrite trimEnd_empty_iff, allWhiteSpace_trimStart. reflexivity.
Qed.

Lemma truthy_trim (s : string) :
  JsString.truthy (JsString.trim s) = negb (JsString.allWhiteSpace s).
Proof.
  destruct (JsString.allWhiteSpace s) eqn:E; simpl.
  - apply trim_empty_iff in E. rewrite E. reflexivity.
  - destruct (JsString.trim s) eqn:T; [|reflexivity].
    apply trim_empty_iff in T. congruence.
Qed.

(* ================================================================= *)
(** ** Mode switch *)

(** The handler alone carries no guard: called on a running timer it
    would stop it.  The guard is the button's [disabled] attribute. *)
Lemma switchMode_unguarded (a : App) :
  isActive (timer a) = true -> switchMode a <> a.
Proof.
  intros H E. apply (f_equal (fun x => isActive (timer x))) in E.
  simpl in E. congruence.
Qed.

(** C3.  Pressing the switch-mode button while the timer is running
    changes nothing: the whole application state, and with it the
    session (minutes, seconds, isActive, isBreak, currentTaskId), is the
    one before the click. *)
Theorem clickSwitchMode_running_noop (a : App) :
  isActive (timer a) = true ->
  clickSwitchMode a = a /\
  minutes (timer (clickSwitchMode a)) = minutes (timer a) /\
  seconds (timer (clickSwitchMode a)) = seconds (timer a) /\
  isActive (timer (clickSwitchMode a)) = isActive (timer a) /\
  isBreak (timer (clickSwitchMode a)) = isBreak (timer a) /\
  currentTaskId (timer (clickSwitchMode a)) = currentTaskId (timer a).
Proof.
  intros H. unfold clickSwitchMode. rewrite H. repeat split; assumption.
Qed.

Lemma clickSwitchMode_running_noop_witness :
  isActive (timer runningApp) = true /\ clickSwitchMode runningApp = runningApp.
Proof.
  split; [reflexivity|].
  apply (clickSwitchMode_running_noop runningApp). reflexivity.
Defined.

(* ================================================================= *)
(** ** Deleting a task *)

Lemma idIs_true_iff (x : option string) (id : string) :
  idIs x id = true <-> x = Some id.
Proof.
  destruct x as [s|]; simpl.
  - rewrite String.eqb_eq. split; congruence.
  - split; discriminate.
Qed.

(** C4.  Deleting the task the session points at removes it from the
    registry (every other task stays), clears [currentTaskId] and stops
    the timer; deleting any other task leaves the session as it was. *)
Theorem deleteTodo_cascade (id : string) (a : App) :
  (currentTaskId (timer a) = Some id ->
     ~ In id (map todo_id (todos (deleteTodo id a))) /\
     (forall todo, In todo (todos (deleteTodo id a)) <->
                   In todo (todos a) /\ todo_id todo <> id) /\
     timer (deleteTodo id a) =
       mkTimer (minutes (timer a)) (seconds (timer a)) false
               (isBreak (timer a)) None) /\
  (currentTaskId (timer a) <> Some id ->
     timer (deleteTodo id a) = timer a).
Proof.
  assert (Hin : forall todo,
             In todo (filter (fun t => negb (String.eqb (todo_id t) id)) (todos a)) <->
             In todo (todos a) /\ todo_id todo <> id).
  { intros todo. rewrite filter_In, negb_true_iff, String.eqb_neq. reflexivity. }
  split; intros H; unfold deleteTodo.
  - apply idIs_true_iff in H. rewrite H. simpl. split; [|split].
    + rewrite in_map_iff. intros (todo & E & I).
      apply Hin in I. tauto.
    + exact Hin.
    + reflexivity.
  - destruct (idIs (currentTaskId (timer a)) id) eqn:E.
    + apply idIs_true_iff in E. contradiction.
    + reflexivity.
Qed.

Lemma deleteTodo_cascade_witness :
  todos (deleteTodo "t1" twoTasks) = [mkTodo "t2" "read" 1 0 false] /\
  timer (deleteTodo "t1" twoTasks) = mkTimer 7 30 false false None /\
  timer (deleteTodo "t2" twoTasks) = timer twoTasks.
Proof.
  split; [reflexivity|]. split.
  - apply (proj1 (deleteTodo_cascade "t1" twoTasks)). reflexivity.
  - apply (proj2 (deleteTodo_cascade "t2" twoTasks)). discriminate.
Defined.

(* ================================================================= *)
(** ** Settings update and the displayed time *)

(** With the timer stopped in focus mode the minutes take the new work
    duration; the seconds are the ones the timer had. *)
Lemma updateSettings_workDuration_idle (v : Z) (a : App) :
  isActive (timer a) = false -> isBreak (timer a) = false ->
  timer (updateSettings (onlyWorkDuration v) a) =
    mkTimer v (seconds (timer a)) false false (currentTaskId (timer a)).
Proof.
  intros Ha Hb. unfold updateSettings. rewrite Ha. simpl.
  rewrite Ha, Hb. reflexivity.
Qed.

(** With the timer running the session is not touched. *)
Lemma updateSettings_running (n : PartialSettings) (a : App) :
  isActive (timer a) = true ->
  timer (updateSettings n a) = timer a.
Proof.
  intros Ha. unfold updateSettings. rewrite Ha. reflexivity.
Qed.

(** C5.  On a focus timer paused at 12:34, setting the work duration to
    30 minutes leaves the timer at 30:34: the minutes are replaced and
    the seconds of the interrupted session stay, so the remaining time is
    not the new duration 30:00 (which [resetTimer] gives in the resulting
    state). *)
Theorem updateSettings_paused_keeps_seconds :
  let a' := updateSettings (onlyWorkDuration 30) pausedMidSession in
  workDuration (settings a') = 30 /\
  minutes (timer a') = 30 /\ seconds (timer a') = 34 /\
  timer a' <> mkTimer 30 0 false false (Some "1700000000000") /\
  timer (resetTimer a') = mkTimer 30 0 false false (Some "1700000000000").
Proof.
  cbv zeta. repeat split. discriminate.
Qed.

(* ================================================================= *)
(** ** Reload *)

(** C6.  Whatever session was written to the timer slot, also one saved
    while running, the load effect restores its minutes, seconds, kind
    and task reference and leaves the timer stopped; any object parsed
    from the slot leaves it stopped. *)
Theorem load_never_resumes
    (savedTodos : Slot (list TodoItem)) (savedSettings : Slot Settings)
    (savedPlaylist : Slot (list YouTubeTrack)) (a : App) :
  (forall saved : PomodoroTimer,
     timer (load savedTodos savedSettings (Parsed (snapshot saved)) savedPlaylist a) =
       mkTimer (minutes saved) (seconds saved) false (isBreak saved)
               (currentTaskId saved)) /\
  (forall parsedTimer : PartialTimer,
     isActive (timer (load savedTodos savedSettings (Parsed parsedTimer)
                           savedPlaylist a)) = false).
Proof.
  split; intros; unfold load;
    destruct savedPlaylist, savedSettings, savedTodos; reflexivity.
Qed.

(* ================================================================= *)
(** ** Playlist *)

Example extract_short : extractVideoId "https://youtu.be/abc123" = Some "abc123".
Proof. reflexivity. Qed.

Example extract_watch :
  extractVideoId "https://www.youtube.com/watch?v=abc123&t=5" = Some "abc123".
Proof. reflexivity. Qed.

Example extract_embed :
  extractVideoId "https://www.youtube.com/embed/abc123" = Some "abc123".
Proof. reflexivity. Qed.

Example extract_other : extractVideoId "https://example.com" = None.
Proof. reflexivity. Qed.

(** C7.  Each of the three URL shapes yields the identifier [abc123] and
    a track with that [videoId] is appended to the playlist;
    [https://example.com] yields no identifier, the user gets an alert
    and the playlist is the one before. *)
Theorem addTrack_url_shapes (now : string) (a : App) :
  let short := "https://youtu.be/abc123" in
  let watch := "https://www.youtube.com/watch?v=abc123&t=5" in
  let embed := "https://www.youtube.com/embed/abc123" in
  let other := "https://example.com" in
  (extractVideoId short = Some "abc123" /\
   extractVideoId watch = Some "abc123" /\
   extractVideoId embed = Some "abc123" /\
   extractVideoId other = None) /\
  (youtubePlaylist (fst (addTrack now short a)) =
     youtubePlaylist a ++ [abc123Track now short] /\
   youtubePlaylist (fst (addTrack now watch a)) =
     youtubePlaylist a ++ [abc123Track now watch] /\
   youtubePlaylist (fst (addTrack now embed a)) =
     youtubePlaylist a ++ [abc123Track now embed]) /\
  (youtubePlaylist (fst (addTrack now other a)) = youtubePlaylist a /\
   snd (addTrack now other a) = [Alert "Please enter a valid YouTube URL"]).
Proof.
  cbv zeta. repeat split.
Qed.

(** C8.  Removing the only track of a one-track playlist empties the
    playlist and sets the current index to 0, whatever it was. *)
Theorem removeTrack_last_track (t : YouTubeTrack) (a : App) :
  youtubePlaylist a = [t] ->
  youtubePlaylist (removeTrack (track_id t) a) = [] /\
  currentTrack (removeTrack (track_id t) a) = 0.
Proof.
  intros H. unfold removeTrack. rewrite H. simpl.
  rewrite String.eqb_refl. split; reflexivity.
Qed.

Lemma removeTrack_last_track_witness :
  currentTrack oneTrack = 4 /\
  youtubePlaylist (removeTrack "1700000000001" oneTrack) = [] /\
  currentTrack (removeTrack "1700000000001" oneTrack) = 0.
Proof.
  split; [reflexivity|].
  apply (removeTrack_last_track
           (abc123Track "1700000000001" "https://youtu.be/abc123") oneTrack).
  reflexivity.
Defined.

(** The index moves of [nextTrack] and [previousTrack] on a non-empty
    playlist. *)
Lemma nextTrack_index (a : App) :
  let len := Z.of_nat (List.length (youtubePlaylist a)) in
  0 <= currentTrack a < len ->
  fst (nextTrack a) = setCurrentTrack ((currentTrack a + 1) mod len) a.
Proof.
  intros len H. unfold nextTrack. fold len.
  destruct (len =? 0) eqn:E; [apply Z.eqb_eq in E; lia|].
  simpl. rewrite Z.rem_mod_nonneg by lia. reflexivity.
Qed.

Lemma previousTrack_index (a : App) :
  let len := Z.of_nat (List.length (youtubePlaylist a)) in
  0 <= currentTrack a < len ->
  fst (previousTrack a) = setCurrentTrack ((currentTrack a - 1 + len) mod len) a.
Proof.
  intros len H. unfold previousTrack. fold len.
  destruct (len =? 0) eqn:E; [apply Z.eqb_eq in E; lia|].
  simpl. f_equal.
  destruct (currentTrack a =? 0) eqn:E0.
  - apply Z.eqb_eq in E0. rewrite E0.
    replace (0 - 1 + len) with (len - 1) by lia.
    symmetry. apply Z.mod_small. lia.
  - apply Z.eqb_neq in E0.
    replace (currentTrack a - 1 + len) with (currentTrack a - 1 + 1 * len) by lia.
    rewrite Z.mod_add by lia. symmetry. apply Z.mod_small. lia.
Qed.

Lemma setCurrentTrack_same (a : App) : setCurrentTrack (currentTrack a) a = a.
Proof. destruct a; reflexivity. Qed.

Lemma setCurrentTrack_twice (i j : Z) (a : App) :
  setCurrentTrack i (setCurrentTrack j a) = setCurrentTrack i a.
Proof. reflexivity. Qed.

(** C10.  On a playlist of [len > 0] tracks with the current index in
    range, [nextTrack] moves the index to [(i+1) mod len], [previousTrack]
    to [(i-1+len) mod len], and [nextTrack] followed by [previousTrack]
    gives back the state it started from; on an empty playlist each of
    the two changes nothing and calls nothing. *)
Theorem nextTrack_then_previousTrack (a : App) :
  let len := Z.of_nat (List.length (youtubePlaylist a)) in
  (0 <= currentTrack a < len ->
     currentTrack (fst (nextTrack a)) = (currentTrack a + 1) mod len /\
     currentTrack (fst (previousTrack a)) = (currentTrack a - 1 + len) mod len /\
     fst (previousTrack (fst (nextTrack a))) = a) /\
  (youtubePlaylist a = [] ->
     nextTrack a = (a, []) /\ previousTrack a = (a, [])).
Proof.
  intros len. split.
  - intros H.
    pose proof (nextTrack_index a H) as Hn. fold len in Hn.
    pose proof (previousTrack_index a H) as Hp. fold len in Hp.
    rewrite Hn, Hp. split; [reflexivity|]. split; [reflexivity|].
    assert (Hr : 0 <= (currentTrack a + 1) mod len < len)
      by (apply Z.mod_pos_bound; lia).
    pose proof (previousTrack_index (setCurrentTrack ((currentTrack a + 1) mod len) a)) as Hq.
    simpl in Hq. fold len in Hq. rewrite (Hq Hr), setCurrentTrack_twice.
    transitivity (setCurrentTrack (currentTrack a) a);
      [|apply setCurrentTrack_same].
    f_equal.
    replace ((currentTrack a + 1) mod len - 1 + len)
      with ((currentTrack a + 1) mod len + (len - 1)) by lia.
    rewrite Z.add_mod_idemp_l by lia.
    replace (currentTrack a + 1 + (len - 1)) with (currentTrack a + 1 * len) by lia.
    rewrite Z.mod_add by lia. apply Z.mod_small. lia.
  - intros H. unfold nextTrack, previousTrack. rewrite H. split; reflexivity.
Qed.

Lemma nextTrack_then_previousTrack_witness :
  currentTrack (fst (nextTrack threeTracks)) = 0 /\
  currentTrack (fst (previousTrack threeTracks)) = 1 /\
  fst (previousTrack (fst (nextTrack threeTracks))) = threeTracks /\
  nextTrack initialApp = (initialApp, []).
Proof.
  destruct (nextTrack_then_previousTrack threeTracks) as [H _].
  destruct (H ltac:(simpl; lia)) as (Hn & Hp & Hr).
  destruct (nextTrack_then_previousTrack initialApp) as [_ H0].
  destruct (H0 eq_refl) as [Hi _].
  repeat split; assumption.
Defined.

(* ================================================================= *)
(** ** Creating a task *)

(** C9.  A title that is empty or all white space makes the submission
    do nothing: the state is the one with the inputs as typed, the
    registry is unchanged; a title with other content appends a task
    with the trimmed title, no completed pomodoro, not done. *)
Theorem create_validates_title (now ttl : string) (estimate : Z) (a : App) :
  (JsString.trim ttl = "" <-> JsString.allWhiteSpace ttl = true) /\
  (JsString.allWhiteSpace ttl = true ->
     create now ttl estimate a = setNewTodoPomodoros estimate (setNewTodoTitle ttl a) /\
     todos (create now ttl estimate a) = todos a) /\
  (JsString.allWhiteSpace ttl = false ->
     todos (create now ttl estimate a) =
       todos a ++ [mkTodo now (JsString.trim ttl) estimate 0 false]).
Proof.
  split; [apply trim_empty_iff|].
  unfold create, addTodo. simpl. rewrite truthy_trim.
  split; intros H; rewrite H; simpl; auto.
Qed.

Lemma create_validates_title_witness :
  todos (create "1700000000002" "   " 3 initialApp) = [] /\
  todos (create "1700000000002" "  plan week " 3 initialApp) =
    [mkTodo "1700000000002" "plan week" 3 0 false].
Proof.
  destruct (create_validates_title "1700000000002" "   " 3 initialApp)
    as (_ & H1 & _).
  destruct (create_validates_title "1700000000002" "  plan week " 3 initialApp)
    as (_ & _ & H2).
  split.
  - apply H1. reflexivity.
  - apply H2. reflexivity.
Defined.

(* ================================================================= *)
(** ** The countdown *)

(** Turns the outcome of a [>?] test into the order it decides. *)
Ltac gtb_to_Z :=
  repeat match goal with
  | H : (_ >? _) = true |- _ => apply Z.gtb_lt in H
  | H : (_ >? _) = false |- _ => rewrite Z.gtb_ltb in H; apply Z.ltb_ge in H
  end.

Section Countdown.

Variable s : Settings.        (* the settings the interval closure captured *)
Variable granted : bool.

Lemma tickTimer_eq (t : PomodoroTimer) (td : list TodoItem) :
  tickTimer s granted t td =
    if seconds t >? 0 then
      mkTimer (minutes t) (seconds t - 1) (isActive t) (isBreak t) (currentTaskId t)
    else if minutes t >? 0 then
      mkTimer (minutes t - 1) 59 (isActive t) (isBreak t) (currentTaskId t)
    else
      mkTimer (if negb (isBreak t) then breakDuration s else workDuration s)
              0 false (negb (isBreak t)) (currentTaskId t).
Proof.
  unfold tickTimer, tick.
  destruct (seconds t >? 0); [reflexivity|].
  destruct (minutes t >? 0); [reflexivity|].
  destruct (isBreak t), (truthyId (currentTaskId t)); reflexivity.
Qed.

Lemma tickTodos_eq (t : PomodoroTimer) (td : list TodoItem) :
  tickTodos s granted t td =
    if (seconds t >? 0) || (minutes t >? 0) then td
    else if negb (isBreak t) && truthyId (currentTaskId t)
         then map (completePomodoro (currentTaskId t)) td
         else td.
Proof.
  unfold tickTodos, tick.
  destruct (seconds t >? 0); [reflexivity|].
  destruct (minutes t >? 0); [reflexivity|].
  destruct (isBreak t), (truthyId (currentTaskId t)); reflexivity.
Qed.

Lemma tickEffects_length (t : PomodoroTimer) (td : list TodoItem) :
  (List.length (tickEffects s granted t td) <= 1)%nat.
Proof.
  unfold tickEffects, tick, showNotification.
  destruct (seconds t >? 0); [simpl; lia|].
  destruct (minutes t >? 0); [simpl; lia|].
  destruct (isBreak t), (truthyId (currentTaskId t)),
    (notificationsEnabled s && granted); simpl; lia.
Qed.

Lemma tick_currentTaskId (t : PomodoroTimer) (td : list TodoItem) :
  currentTaskId (tickTimer s granted t td) = currentTaskId t.
Proof.
  rewrite tickTimer_eq.
  destruct (seconds t >? 0); [reflexivity|].
  destruct (minutes t >? 0); reflexivity.
Qed.

Lemma tick_nonNegative (t : PomodoroTimer) (td : list TodoItem) :
  0 <= workDuration s -> 0 <= breakDuration s ->
  nonNegative t -> nonNegative (tickTimer s granted t td).
Proof.
  intros Hw Hb [Hm Hs]. rewrite tickTimer_eq. unfold nonNegative.
  destruct (seconds t >? 0) eqn:Es; [apply Z.gtb_lt in Es; simpl; lia|].
  destruct (minutes t >? 0) eqn:Em; [apply Z.gtb_lt in Em; simpl; lia|].
  destruct (isBreak t); simpl; lia.
Qed.



(** *** The interval *)

Lemma intervalTick_active (a : App) :
  isActive (timer a) = true ->
  fst (intervalTick s granted a) =
    setTimer (tickTimer s granted (timer a) (todos a))
             (setTodos (tickTodos s granted (timer a) (todos a)) a).
Proof.
  intros H. unfold intervalTick, tickTimer, tickTodos. rewrite H.
  destruct (tick s granted (timer a) (todos a)) as [[t' td'] e]. reflexivity.
Qed.

Lemma intervalTick_stopped (a : App) :
  isActive (timer a) = false -> intervalTick s granted a = (a, []).
Proof. intros H. unfold intervalTick. rewrite H. reflexivity. Qed.

Lemma intervalTicks_stopped (n : nat) (a : App) :
  isActive (timer a) = false -> intervalTicks n s granted a = a.
Proof.
  intros H. induction n as [|k IH]; simpl; [reflexivity|].
  rewrite intervalTick_stopped by exact H. exact IH.
Qed.

Lemma intervalTicks_add (n m : nat) (a : App) :
  intervalTicks (n + m) s granted a =
    intervalTicks m s granted (intervalTicks n s granted a).
Proof.
  revert a. induction n as [|k IH]; intros a; simpl; [reflexivity|apply IH].
Qed.

Lemma intervalTick_effects_length (a : App) :
  (List.length (snd (intervalTick s granted a)) <= 1)%nat.
Proof.
  unfold intervalTick. destruct (isActive (timer a)); [|simpl; lia].
  pose proof (tickEffects_length (timer a) (todos a)) as H.
  unfold tickEffects in H.
  destruct (tick s granted (timer a) (todos a)) as [[t' td'] e]. exact H.
Qed.

(** While time remains, a period of the interval takes one second off
    and touches nothing else. *)
Lemma intervalTick_countdown (a : App) :
  isActive (timer a) = true ->
  0 <= minutes (timer a) -> 0 <= seconds (timer a) <= 59 ->
  0 < remainingSeconds (timer a) ->
  let a' := fst (intervalTick s granted a) in
  todos a' = todos a /\
  isActive (timer a') = true /\
  isBreak (timer a') = isBreak (timer a) /\
  currentTaskId (timer a') = currentTaskId (timer a) /\
  remainingSeconds (timer a') = remainingSeconds (timer a) - 1 /\
  0 <= minutes (timer a') /\ 0 <= seconds (timer a') <= 59.
Proof.
  intros Ha Hm Hs Hr a'. subst a'. rewrite intervalTick_active by exact Ha.
  simpl. rewrite tickTimer_eq, tickTodos_eq.
  unfold remainingSeconds in *.
  destruct (seconds (timer a) >? 0) eqn:Es.
  - gtb_to_Z. cbn [orb minutes seconds isActive isBreak currentTaskId].
    repeat split; auto; lia.
  - destruct (minutes (timer a) >? 0) eqn:Em; gtb_to_Z.
    + cbn [orb minutes seconds isActive isBreak currentTaskId].
      repeat split; auto; lia.
    + lia.
Qed.

Lemma intervalTicks_countdown (n : nat) :
  forall a : App,
  isActive (timer a) = true ->
  0 <= minutes (timer a) -> 0 <= seconds (timer a) <= 59 ->
  Z.of_nat n <= remainingSeconds (timer a) ->
  let a' := intervalTicks n s granted a in
  todos a' = todos a /\
  isActive (timer a') = true /\
  isBreak (timer a') = isBreak (timer a) /\
  currentTaskId (timer a') = currentTaskId (timer a) /\
  remainingSeconds (timer a') = remainingSeconds (timer a) - Z.of_nat n /\
  0 <= minutes (timer a') /\ 0 <= seconds (timer a') <= 59.
Proof.
  induction n as [|k IH]; intros a Ha Hm Hs Hr.
  - simpl. repeat split; auto; lia.
  - destruct (intervalTick_countdown a Ha Hm Hs ltac:(lia))
      as (Htd & Hact & Hbr & Hid & Hrem & Hm' & Hs').
    destruct (IH (fst (intervalTick s granted a)) Hact Hm' Hs' ltac:(lia))
      as (Htd2 & Hact2 & Hbr2 & Hid2 & Hrem2 & Hm2 & Hs2).
    cbn [intervalTicks]. cbv zeta.
    rewrite Htd2, Hact2, Hbr2, Hid2, Hrem2, Htd, Hbr, Hid, Hrem.
    repeat split; auto; lia.
Qed.

(** A session without a task reference never touches the registry. *)
Lemma intervalTicks_no_task (n : nat) :
  forall a : App,
  truthyId (currentTaskId (timer a)) = false ->
  todos (intervalTicks n s granted a) = todos a.
Proof.
  induction n as [|k IH]; intros a H; simpl; [reflexivity|].
  destruct (isActive (timer a)) eqn:Ha.
  - rewrite IH.
    + rewrite intervalTick_active by exact Ha. simpl.
      rewrite tickTodos_eq, H, andb_false_r.
      destruct (_ || _); reflexivity.
    + rewrite intervalTick_active by exact Ha. simpl.
      rewrite tick_currentTaskId. exact H.
  - rewrite intervalTick_stopped by exact Ha. apply IH. exact H.
Qed.

End Countdown.

(** The other handlers that write the timer keep the remaining time
    non-negative as long as the configured durations, and the durations
    handed to [updateSettings], are non-negative. *)
Lemma handlers_keep_nonNegative (a : App) :
  0 <= workDuration (settings a) -> 0 <= breakDuration (settings a) ->
  nonNegative (timer a) ->
  (forall taskId, nonNegative (timer (startPomodoroForTask taskId a))) /\
  nonNegative (timer (toggleTimer a)) /\
  nonNegative (timer (resetTimer a)) /\
  nonNegative (timer (switchMode a)) /\
  (forall id, nonNegative (timer (deleteTodo id a))) /\
  (forall confirmed, nonNegative (timer (clearAllTasks confirmed a))) /\
  (forall n, 0 <= orElse (p_workDuration n) 0 ->
             0 <= orElse (p_breakDuration n) 0 ->
             nonNegative (timer (updateSettings n a))).
Proof.
  intros Hw Hb [Hm Hs].
  split; [|split; [|split; [|split; [|split; [|split]]]]]; unfold nonNegative.
  - intros taskId. simpl. lia.
  - simpl. lia.
  - simpl. destruct (isBreak (timer a)); lia.
  - simpl. destruct (isBreak (timer a)); simpl; lia.
  - intros id. unfold deleteTodo.
    destruct (idIs (currentTaskId (timer a)) id); simpl; lia.
  - intros confirmed. unfold clearAllTasks.
    destruct (todos a); [lia|].
    destruct confirmed; [|lia].
    destruct (truthyId (currentTaskId (timer a))); simpl; lia.
  - intros n Hnw Hnb. unfold updateSettings.
    destruct (isActive (timer a)); simpl; [lia|].
    destruct (isBreak (timer a)), (p_workDuration n), (p_breakDuration n);
      simpl in *; lia.
Qed.



(* ================================================================= *)
(** ** Completing a focus session *)

Lemma completePomodoro_other (id : string) (l : list TodoItem) :
  ~ In id (map todo_id l) -> map (completePomodoro (Some id)) l = l.
Proof.
  induction l as [|todo l IH]; intros H; simpl; [reflexivity|].
  simpl in H. rewrite IH by tauto. f_equal.
  unfold completePomodoro. simpl.
  destruct (String.eqb id (todo_id todo)) eqn:E; [|reflexivity].
  apply String.eqb_eq in E. subst id. tauto.
Qed.

Lemma completePomodoro_task (todo : TodoItem) :
  completePomodoro (Some (todo_id todo)) todo = completedOnce todo.
Proof.
  unfold completePomodoro. simpl. rewrite String.eqb_refl. reflexivity.
Qed.

Lemma completePomodoro_registry (before after : list TodoItem) (task : TodoItem) :
  ~ In (todo_id task) (map todo_id (before ++ after)) ->
  map (completePomodoro (Some (todo_id task))) (before ++ task :: after) =
    before ++ completedOnce task :: after.
Proof.
  intros H. rewrite map_app in H. rewrite in_app_iff in H.
  rewrite map_app. simpl.
  rewrite completePomodoro_task, !completePomodoro_other by tauto.
  reflexivity.
Qed.

Lemma completePomodoro_step (x : option string) (l : list TodoItem) :
  Forall2 (fun old new => new = old \/ new = completedOnce old)
          l (map (completePomodoro x) l).
Proof.
  induction l as [|todo l IH]; simpl; constructor; [|exact IH].
  unfold completePomodoro, completedOnce.
  destruct (idIs x (todo_id todo)); auto.
Qed.

Lemma unchanged_step (l : list TodoItem) :
  Forall2 (fun old new => new = old \/ new = completedOnce old) l l.
Proof. induction l; constructor; auto. Qed.

Lemma intervalTick_step (s : Settings) (granted : bool) (a : App) :
  Forall2 (fun old new => new = old \/ new = completedOnce old)
          (todos a) (todos (fst (intervalTick s granted a))).
Proof.
  destruct (isActive (timer a)) eqn:Ha.
  - rewrite intervalTick_active by exact Ha. simpl. rewrite tickTodos_eq.
    destruct (_ || _); [apply unchanged_step|].
    destruct (_ && _); [apply completePomodoro_step|apply unchanged_step].
  - rewrite intervalTick_stopped by exact Ha. apply unchanged_step.
Qed.

Lemma truthy_nonempty (x : string) : x <> "" -> JsString.truthy x = true.
Proof. destruct x; [congruence|reflexivity]. Qed.

(** C2.  A focus session started for a task of the registry (the only
    one with its id) counts down for 60 * workDuration periods of the
    interval without touching the registry; the period after that, taken
    at 0:00, ends the session, and from then on the registry is the one
    before with that task's [completedPomodoros] one higher and every
    other task as it was.  A session without a task reference changes no
    task.  One period of the interval shows at most one notification and
    raises no task's count by more than one. *)
Theorem focus_session_counts_once (granted : bool) (taskId : string) (a : App)
    (before after : list TodoItem) (task : TodoItem) :
  0 <= workDuration (settings a) ->
  taskId <> "" ->
  todo_id task = taskId ->
  todos a = before ++ task :: after ->
  ~ In taskId (map todo_id (before ++ after)) ->
  let run n := intervalTicks n (settings a) granted (startPomodoroForTask taskId a) in
  let full := Z.to_nat (60 * workDuration (settings a)) in
  (forall n, (n <= full)%nat ->
     todos (run n) = todos a /\ isActive (timer (run n)) = true) /\
  (forall n, (full < n)%nat ->
     todos (run n) = before ++ completedOnce task :: after /\
     isActive (timer (run n)) = false) /\
  (forall (s : Settings) (b : App) (n : nat),
     currentTaskId (timer b) = None ->
     todos (intervalTicks n s granted b) = todos b) /\
  (forall (s : Settings) (b : App),
     (List.length (snd (intervalTick s granted b)) <= 1)%nat /\
     Forall2 (fun old new => new = old \/ new = completedOnce old)
             (todos b) (todos (fst (intervalTick s granted b)))).
Proof.
  intros Hw Hne Hid Htd Hnd run full.
  set (a0 := startPomodoroForTask taskId a).
  assert (Hcount : forall n, (n <= full)%nat ->
            let a' := run n in
            todos a' = todos a /\ isActive (timer a') = true /\
            isBreak (timer a') = false /\
            currentTaskId (timer a') = Some taskId /\
            remainingSeconds (timer a') =
              60 * workDuration (settings a) - Z.of_nat n /\
            0 <= minutes (timer a') /\ 0 <= seconds (timer a') <= 59).
  { intros n Hn.
    assert (Hr0 : remainingSeconds (timer a0) = 60 * workDuration (settings a))
      by (unfold remainingSeconds; simpl; lia).
    assert (Hle : Z.of_nat n <= remainingSeconds (timer a0))
      by (rewrite Hr0; subst full; lia).
    destruct (intervalTicks_countdown (settings a) granted n a0 eq_refl
                ltac:(unfold a0; simpl; lia) ltac:(unfold a0; simpl; lia) Hle)
      as (H1 & H2 & H3 & H4 & H5 & H6 & H7).
    cbv zeta. unfold run. fold a0.
    rewrite H1, H2, H3, H4, H5, Hr0. repeat split; auto; lia. }
  split; [|split; [|split]].
  - intros n Hn. destruct (Hcount n Hn) as (H1 & H2 & _). auto.
  - intros n Hn.
    replace n with (full + (1 + (n - full - 1)))%nat by lia.
    pose proof (Hcount full (Nat.le_refl _)) as Hf.
    cbv zeta in Hf. unfold run in Hf |- *. rewrite !intervalTicks_add.
    fold a0 in Hf |- *.
    set (af := intervalTicks full (settings a) granted a0) in *.
    destruct Hf as (H1 & H2 & H3 & H4 & H5 & H6 & H7).
    assert (Hm : minutes (timer af) = 0)
      by (unfold remainingSeconds in H5; subst full; lia).
    assert (Hs : seconds (timer af) = 0)
      by (unfold remainingSeconds in H5; subst full; lia).
    cbn [intervalTicks]. rewrite intervalTick_active by exact H2.
    rewrite tickTimer_eq, tickTodos_eq, Hm, Hs, H1, H3, H4.
    cbn [Z.gtb Z.compare orb negb andb truthyId].
    rewrite truthy_nonempty by exact Hne.
    rewrite intervalTicks_stopped by reflexivity.
    cbn [todos timer setTimer setTodos isActive].
    rewrite Htd. subst taskId. rewrite completePomodoro_registry by exact Hnd.
    split; reflexivity.
  - intros s b n H. apply intervalTicks_no_task. rewrite H. reflexivity.
  - intros s b. split.
    + apply intervalTick_effects_length.
    + apply intervalTick_step.
Qed.

Lemma focus_session_counts_once_witness :
  let run n :=
    intervalTicks n (settings oneMinuteApp) true
                  (startPomodoroForTask "t1" oneMinuteApp) in
  todos (run 60%nat) = todos oneMinuteApp /\
  todos (run 61%nat) =
    [mkTodo "t1" "write" 2 1 false; mkTodo "t2" "read" 1 0 false] /\
  todos (run 90%nat) =
    [mkTodo "t1" "write" 2 1 false; mkTodo "t2" "read" 1 0 false].
Proof.
  destruct (focus_session_counts_once true "t1" oneMinuteApp
              [] [mkTodo "t2" "read" 1 0 false] (mkTodo "t1" "write" 2 0 false))
    as (H1 & H2 & _).
  - simpl. lia.
  - discriminate.
  - reflexivity.
  - reflexivity.
  - simpl. intros [H|[]]. discriminate.
  - cbv zeta. split; [|split].
    + apply H1. simpl. lia.
    + apply H2. simpl. lia.
    + apply H2. simpl. lia.
Defined.

(* ================================================================= *)
(** ** Video identifiers *)

Lemma idRun_allIdChars (s : string) : allIdChars (JsString.idRun s) = true.
Proof.
  induction s as [|c r IH]; simpl; [reflexivity|].
  destruct (JsString.idChar c) eqn:E; simpl; [rewrite E; exact IH|reflexivity].
Qed.

Lemma matchHere_some (alts : list string) (s v : string) :
  JsString.matchHere alts s = Some v -> v <> "" /\ allIdChars v = true.
Proof.
  induction alts as [|p alts IH]; simpl; [discriminate|].
  destruct (JsString.afterPrefix p s) as [rest|]; [|exact IH].
  pose proof (idRun_allIdChars rest) as Hr.
  destruct (JsString.idRun rest) eqn:E; [exact IH|].
  intros H. injection H as <-. split; [discriminate|exact Hr].
Qed.

Lemma matchGroup1_some (alts : list string) (s v : string) :
  JsString.matchGroup1 alts s = Some v -> v <> "" /\ allIdChars v = true.
Proof.
  induction s as [|c r IH]; simpl.
  - destruct (JsString.matchHere alts "") eqn:E; [|discriminate].
    intros H. injection H as <-. exact (matchHere_some _ _ _ E).
  - destruct (JsString.matchHere alts (String c r)) eqn:E; [|exact IH].
    intros H. injection H as <-. exact (matchHere_some _ _ _ E).
Qed.

Lemma firstMatch_some (ps : list (list string)) (u v : string) :
  firstMatch ps u = Some v -> v <> "" /\ allIdChars v = true.
Proof.
  induction ps as [|p ps IH]; simpl; [discriminate|].
  destruct (JsString.matchGroup1 p u) eqn:E; [|exact IH].
  intros H. injection H as <-. exact (matchGroup1_some _ _ _ E).
Qed.

(** X1.  An identifier returned by [extractVideoId] is never empty (so
    it is truthy) and holds none of the characters [&], line feed, [?]
    and [#]. *)
Theorem extractVideoId_wellformed (u v : string) :
  extractVideoId u = Some v ->
  v <> "" /\ truthyId (Some v) = true /\ allIdChars v = true /\
  hasChar "&" v = false /\ hasChar "010" v = false /\
  hasChar "?" v = false /\ hasChar "#" v = false.
Proof.
  intros H. apply firstMatch_some in H as [Hne Hall].
  split; [exact Hne|]. split; [apply truthy_nonempty; exact Hne|].
  split; [exact Hall|].
  clear Hne. induction v as [|c r IH]; [repeat split|].
  simpl in Hall. apply andb_true_iff in Hall as [Hc Hr].
  destruct (IH Hr) as (H1 & H2 & H3 & H4).
  unfold JsString.idChar in Hc. apply negb_true_iff in Hc.
  apply orb_false_iff in Hc as [Hc Hc4].
  apply orb_false_iff in Hc as [Hc Hc3].
  apply orb_false_iff in Hc as [Hc1 Hc2].
  cbn [hasChar]. rewrite H1, H2, H3, H4.
  rewrite (Ascii.eqb_sym "&" c), (Ascii.eqb_sym "010" c),
          (Ascii.eqb_sym "?" c), (Ascii.eqb_sym "#" c), Hc1, Hc2, Hc3, Hc4.
  repeat split.
Qed.

Lemma extractVideoId_wellformed_witness :
  extractVideoId "see https://youtu.be/dQw4w9WgXcQ?t=42#top" = Some "dQw4w9WgXcQ" /\
  hasChar "?" "dQw4w9WgXcQ" = false.
Proof.
  split; [reflexivity|].
  apply (extractVideoId_wellformed
           "see https://youtu.be/dQw4w9WgXcQ?t=42#top" "dQw4w9WgXcQ").
  reflexivity.
Defined.

Lemma idRun_app (id rest : string) :
  allIdChars id = true -> JsString.idRun rest = "" ->
  JsString.idRun (id ++ rest)%string = id.
Proof.
  intros H Hr. induction id as [|c r IH]; simpl; [exact Hr|].
  simpl in H. apply andb_true_iff in H as [Hc H].
  rewrite Hc, IH by exact H. reflexivity.
Qed.

Lemma afterPrefix_hasChar (c : ascii) (p s r : string) :
  JsString.afterPrefix p s = Some r -> hasChar c p = true -> hasChar c s = true.
Proof.
  revert s. induction p as [|a p IH]; intros s H Hc; simpl in *; [discriminate|].
  destruct s as [|b s]; [discriminate|].
  destruct (Ascii.eqb a b) eqn:E; [|discriminate].
  apply Ascii.eqb_eq in E. subst b. simpl.
  destruct (Ascii.eqb c a); [reflexivity|]. simpl in *. exact (IH s H Hc).
Qed.

(** A text without a dot matches no pattern whose literal part holds a
    dot. *)
Lemma pattern_needs_dot (alts : list string) (s : string) :
  forallb (hasChar ".") alts = true ->
  hasChar "." s = false ->
  JsString.matchGroup1 alts s = None.
Proof.
  intros Ha.
  assert (Hh : forall t, hasChar "." t = false -> JsString.matchHere alts t = None).
  { intros t Ht. induction alts as [|p alts IH]; [reflexivity|].
    simpl in Ha. apply andb_true_iff in Ha as [Hp Ha].
    cbn [JsString.matchHere].
    destruct (JsString.afterPrefix p t) eqn:E; [|exact (IH Ha)].
    apply (afterPrefix_hasChar ".") in E; [congruence|exact Hp]. }
  induction s as [|c r IH]; intros H.
  - cbn [JsString.matchGroup1]. rewrite (Hh _ H). reflexivity.
  - cbn [JsString.matchGroup1]. rewrite (Hh _ H).
    apply IH. simpl in H. apply orb_false_iff in H. tauto.
Qed.

(** X2.  For a non-empty identifier [id] free of [&], line feed, [?] and
    [#], followed by nothing or by text that starts with one of these
    four, the watch and the short URL give back [id]; the embed and the
    [/v/] URL give it back when no dot follows the prefix. *)
Theorem extractVideoId_roundtrip (id rest : string) :
  id <> "" -> allIdChars id = true -> JsString.idRun rest = "" ->
  extractVideoId ("https://www.youtube.com/watch?v=" ++ id ++ rest)%string = Some id /\
  extractVideoId ("https://youtu.be/" ++ id ++ rest)%string = Some id /\
  (hasChar "." (id ++ rest)%string = false ->
     extractVideoId ("https://www.youtube.com/embed/" ++ id ++ rest)%string = Some id /\
     extractVideoId ("https://www.youtube.com/v/" ++ id ++ rest)%string = Some id).
Proof.
  intros Hne Hall Hrest.
  pose proof (idRun_app id rest Hall Hrest) as Hrun.
  unfold extractVideoId, patterns.
  split; [|split].
  - cbn. rewrite Hrun. destruct id; [congruence|reflexivity].
  - cbn. rewrite Hrun. destruct id; [congruence|reflexivity].
  - intros Hdot.
    pose proof (pattern_needs_dot ["youtube.com/watch?v="; "youtu.be/"] _
                  eq_refl Hdot) as Hwatch.
    pose proof (pattern_needs_dot ["youtube.com/embed/"] _ eq_refl Hdot)
      as Hembed.
    split.
    + cbn. cbn in Hwatch. rewrite Hwatch, Hrun.
      destruct id; [congruence|reflexivity].
    + cbn. cbn in Hwatch, Hembed. rewrite Hwatch, Hembed, Hrun.
      destruct id; [congruence|reflexivity].
Qed.

Lemma extractVideoId_roundtrip_witness :
  extractVideoId "https://www.youtube.com/watch?v=dQw4w9WgXcQ&list=PL1" =
    Some "dQw4w9WgXcQ" /\
  extractVideoId "https://www.youtube.com/v/dQw4w9WgXcQ?rel=0" = Some "dQw4w9WgXcQ".
Proof.
  destruct (extractVideoId_roundtrip "dQw4w9WgXcQ" "&list=PL1")
    as (H1 & _ & _); [discriminate|reflexivity|reflexivity|].
  destruct (extractVideoId_roundtrip "dQw4w9WgXcQ" "?rel=0")
    as (_ & _ & H3); [discriminate|reflexivity|reflexivity|].
  split; [exact H1|]. apply H3. reflexivity.
Defined.

(* ================================================================= *)
(** ** Playlist handlers *)

(** X3.  [addYouTubeTrack] has three outcomes.  A blank input: nothing
    happens and nothing is shown.  A non-blank input without a video
    identifier: the state is unchanged and one alert is shown.  An input
    with identifier [v]: a track with that identifier, the title
    [YouTube Video v] and the input as typed is appended, the input is
    cleared and nothing is shown. *)
Theorem addYouTubeTrack_outcomes (now : string) (a : App) :
  let u := newYoutubeUrl a in
  (JsString.allWhiteSpace u = true -> addYouTubeTrack now a = (a, [])) /\
  (JsString.allWhiteSpace u = false -> extractVideoId u = None ->
     addYouTubeTrack now a = (a, [Alert "Please enter a valid YouTube URL"])) /\
  (forall v, JsString.allWhiteSpace u = false -> extractVideoId u = Some v ->
     addYouTubeTrack now a =
       (setNewYoutubeUrl ""
          (setYoutubePlaylist
             (youtubePlaylist a ++ [mkTrack now (String.append "YouTube Video " v) v u])
             a),
        [])).
Proof.
  cbv zeta. unfold addYouTubeTrack. rewrite truthy_trim.
  split; [|split].
  - intros H. rewrite H. reflexivity.
  - intros H E. rewrite H, E. reflexivity.
  - intros v H E. rewrite H, E.
    assert (Ht : truthyId (Some v) = true)
      by (apply truthy_nonempty; apply (firstMatch_some _ _ _ E)).
    rewrite Ht. reflexivity.
Qed.

Lemma addYouTubeTrack_outcomes_witness :
  addYouTubeTrack "1700000000003" (setNewYoutubeUrl "  " initialApp) =
    (setNewYoutubeUrl "  " initialApp, []) /\
  youtubePlaylist
    (fst (addYouTubeTrack "1700000000003"
            (setNewYoutubeUrl " https://youtu.be/dQw4w9WgXcQ" initialApp))) =
    [mkTrack "1700000000003" "YouTube Video dQw4w9WgXcQ" "dQw4w9WgXcQ"
             " https://youtu.be/dQw4w9WgXcQ"].
Proof.
  destruct (addYouTubeTrack_outcomes "1700000000003"
              (setNewYoutubeUrl "  " initialApp)) as (H1 & _).
  destruct (addYouTubeTrack_outcomes "1700000000003"
              (setNewYoutubeUrl " https://youtu.be/dQw4w9WgXcQ" initialApp))
    as (_ & _ & H3).
  split.
  - apply H1. reflexivity.
  - rewrite (H3 "dQw4w9WgXcQ"); reflexivity.
Defined.

Lemma filter_other_length (id : string) (l : list YouTubeTrack) :
  NoDup (map track_id l) ->
  (List.length l <=
     S (List.length (filter (fun track => negb (String.eqb (track_id track) id)) l)))%nat.
Proof.
  induction l as [|t l IH]; intros H; simpl; [lia|].
  inversion H as [|x xs Hnin Hnd]; subst.
  destruct (String.eqb (track_id t) id) eqn:E; simpl.
  - apply String.eqb_eq in E. subst id.
    assert (Hall : filter (fun track => negb (String.eqb (track_id track) (track_id t))) l = l).
    { clear IH H Hnd. induction l as [|t' l IH]; simpl; [reflexivity|].
      simpl in Hnin.
      destruct (String.eqb (track_id t') (track_id t)) eqn:E'.
      - apply String.eqb_eq in E'. tauto.
      - simpl. rewrite IH by tauto. reflexivity. }
    rewrite Hall. lia.
  - specialize (IH Hnd). lia.
Qed.

(** X4.  On a playlist whose tracks have distinct ids, [removeTrack]
    leaves the remaining tracks in their order, none of them with the
    removed id, and keeps the current index valid: 0, or inside the
    shortened playlist. *)
Theorem removeTrack_keeps_index (trackId : string) (a : App) :
  NoDup (map track_id (youtubePlaylist a)) ->
  indexOk (currentTrack a) (List.length (youtubePlaylist a)) ->
  let a' := removeTrack trackId a in
  youtubePlaylist a' =
    filter (fun track => negb (String.eqb (track_id track) trackId))
           (youtubePlaylist a) /\
  ~ In trackId (map track_id (youtubePlaylist a')) /\
  indexOk (currentTrack a') (List.length (youtubePlaylist a')).
Proof.
  intros Hnd Hok a'. subst a'.
  pose proof (filter_other_length trackId _ Hnd) as Hlen.
  assert (Hpl : youtubePlaylist (removeTrack trackId a) =
                filter (fun track => negb (String.eqb (track_id track) trackId))
                       (youtubePlaylist a)).
  { unfold removeTrack. destruct (_ <=? 1); [reflexivity|].
    destruct (_ >=? _); reflexivity. }
  split; [exact Hpl|]. split.
  - rewrite Hpl, in_map_iff. intros (t & E & I).
    apply filter_In in I as [_ I]. rewrite E, String.eqb_refl in I. discriminate.
  - rewrite Hpl. unfold removeTrack, indexOk in *.
    destruct (_ <=? 1) eqn:E1; [left; reflexivity|].
    destruct (_ >=? _) eqn:E2; [left; reflexivity|].
    simpl. rewrite Z.geb_leb in E2. apply Z.leb_gt in E2. lia.
Qed.

Lemma removeTrack_keeps_index_witness :
  currentTrack (removeTrack "1" threeTracks) = 0 /\
  youtubePlaylist (removeTrack "1" threeTracks) =
    [abc123Track "2" "https://www.youtube.com/embed/abc123";
     abc123Track "3" "https://www.youtube.com/watch?v=abc123&t=5"].
Proof.
  destruct (removeTrack_keeps_index "1" threeTracks) as (H1 & _ & _).
  - repeat constructor; simpl; intuition discriminate.
  - right. simpl. lia.
  - split; [reflexivity|exact H1].
Defined.

Lemma trackAt_in_range (l : list YouTubeTrack) (i : Z) :
  0 <= i < Z.of_nat (List.length l) -> exists tr, trackAt l i = Some tr.
Proof.
  intros H. unfold trackAt.
  destruct (i <? 0) eqn:E; [apply Z.ltb_lt in E; lia|].
  destruct (nth_error l (Z.to_nat i)) eqn:N; [eauto|].
  apply nth_error_None in N. lia.
Qed.

(** X5.  On a non-empty playlist [nextTrack] moves any index from -1
    upwards, also one beyond the end, to a valid one, and
    [previousTrack] moves a valid index to a valid one.  With a player
    present each loads the video of the track at the new index, and
    schedules playback exactly when music was playing; without a player
    neither calls anything. *)
Theorem track_moves_stay_in_range (a : App) :
  let len := Z.of_nat (List.length (youtubePlaylist a)) in
  let calls tr :=
    if youtubePlayer a
    then LoadVideoById (videoId tr) :: (if isPlaying a then [PlayMusicAfter 500] else [])
    else [] in
  0 < len ->
  (-1 <= currentTrack a ->
     0 <= currentTrack (fst (nextTrack a)) < len /\
     exists tr, trackAt (youtubePlaylist a) (currentTrack (fst (nextTrack a))) = Some tr /\
                snd (nextTrack a) = calls tr) /\
  (0 <= currentTrack a < len ->
     0 <= currentTrack (fst (previousTrack a)) < len /\
     exists tr, trackAt (youtubePlaylist a) (currentTrack (fst (previousTrack a))) = Some tr /\
                snd (previousTrack a) = calls tr).
Proof.
  intros len calls Hlen. subst calls. split; intros Hc.
  - unfold nextTrack. fold len.
    destruct (len =? 0) eqn:E; [apply Z.eqb_eq in E; lia|].
    cbn [fst snd currentTrack setCurrentTrack].
    assert (Hr : 0 <= Z.rem (currentTrack a + 1) len < len).
    { rewrite Z.rem_mod_nonneg by lia. apply Z.mod_pos_bound. lia. }
    split; [exact Hr|].
    destruct (trackAt_in_range (youtubePlaylist a) _ Hr) as [tr Htr].
    exists tr. split; [exact Htr|].
    unfold loadTrack. rewrite Htr. reflexivity.
  - unfold previousTrack. fold len.
    destruct (len =? 0) eqn:E; [apply Z.eqb_eq in E; lia|].
    cbn [fst snd currentTrack setCurrentTrack].
    assert (Hr : 0 <= (if currentTrack a =? 0 then len - 1 else currentTrack a - 1) < len).
    { destruct (currentTrack a =? 0) eqn:E0; [lia|].
      apply Z.eqb_neq in E0. lia. }
    split; [exact Hr|].
    destruct (trackAt_in_range (youtubePlaylist a) _ Hr) as [tr Htr].
    exists tr. split; [exact Htr|].
    unfold loadTrack. rewrite Htr. reflexivity.
Qed.

Lemma track_moves_stay_in_range_witness :
  currentTrack (fst (nextTrack (setCurrentTrack 7 threeTracks))) = 2 /\
  0 <= currentTrack (fst (nextTrack (setCurrentTrack 7 threeTracks))) < 3.
Proof.
  split; [reflexivity|].
  apply (track_moves_stay_in_range (setCurrentTrack 7 threeTracks));
    simpl; lia.
Defined.

Lemma nextTracks_index (k : nat) :
  forall a : App,
  let len := Z.of_nat (List.length (youtubePlaylist a)) in
  0 <= currentTrack a < len ->
  nextTracks k a = setCurrentTrack ((currentTrack a + Z.of_nat k) mod len) a.
Proof.
  induction k as [|k IH]; intros a len H.
  - cbn [nextTracks]. rewrite Z.add_0_r, Z.mod_small by exact H.
    symmetry. apply setCurrentTrack_same.
  - cbn [nextTracks]. rewrite (nextTrack_index a H). fold len.
    assert (Hr : 0 <= (currentTrack a + 1) mod len < len)
      by (apply Z.mod_pos_bound; lia).
    rewrite IH by exact Hr.
    cbn [currentTrack setCurrentTrack youtubePlaylist]. fold len.
    rewrite Z.add_mod_idemp_l by lia. unfold setCurrentTrack. cbn.
    f_equal. f_equal. lia.
Qed.

(** X6.  On a playlist of [len] tracks with the index in range, [k]
    presses of next-track move the index to [(i + k) mod len]; [len]
    presses give back the starting state; and previous-track followed
    by next-track does too. *)
Theorem nextTrack_cycles (a : App) (k : nat) :
  let len := List.length (youtubePlaylist a) in
  0 <= currentTrack a < Z.of_nat len ->
  currentTrack (nextTracks k a) = (currentTrack a + Z.of_nat k) mod Z.of_nat len /\
  nextTracks len a = a /\
  fst (nextTrack (fst (previousTrack a))) = a.
Proof.
  intros len H. split; [|split].
  - rewrite (nextTracks_index k a H). reflexivity.
  - rewrite (nextTracks_index len a H). fold len.
    replace (currentTrack a + Z.of_nat len)
      with (currentTrack a + 1 * Z.of_nat len) by lia.
    rewrite Z.mod_add, Z.mod_small by lia. apply setCurrentTrack_same.
  - rewrite (previousTrack_index a H). fold len.
    assert (Hr : 0 <= (currentTrack a - 1 + Z.of_nat len) mod Z.of_nat len < Z.of_nat len)
      by (apply Z.mod_pos_bound; lia).
    pose proof (nextTrack_index
                  (setCurrentTrack ((currentTrack a - 1 + Z.of_nat len) mod Z.of_nat len) a))
      as Hn.
    cbn [currentTrack setCurrentTrack youtubePlaylist] in Hn. fold len in Hn.
    rewrite (Hn Hr), setCurrentTrack_twice.
    transitivity (setCurrentTrack (currentTrack a) a);
      [|apply setCurrentTrack_same].
    f_equal. rewrite Z.add_mod_idemp_l by lia.
    replace (currentTrack a - 1 + Z.of_nat len + 1)
      with (currentTrack a + 1 * Z.of_nat len) by lia.
    rewrite Z.mod_add by lia. apply Z.mod_small. lia.
Qed.

Lemma nextTrack_cycles_witness :
  currentTrack (nextTracks 5 threeTracks) = 1 /\
  nextTracks 3 threeTracks = threeTracks.
Proof.
  destruct (nextTrack_cycles threeTracks 5) as (H1 & H2 & _);
    [simpl; lia|].
  split; [exact H1|exact H2].
Defined.

(* ================================================================= *)
(** ** Running, pausing and ending a session *)

Lemma toggleTimer_twice (a : App) : toggleTimer (toggleTimer a) = a.
Proof.
  destruct a as [td nt np st [m sc act br cur] ct ip yp pl nu].
  unfold toggleTimer. simpl. rewrite negb_involutive. reflexivity.
Qed.

(** X8.  Two mode switches in a row give back the kind the timer had,
    with the full configured duration of that kind and the timer
    stopped, and the task reference is gone whichever kind it started
    from; the second click on the button is never refused. *)
Theorem switchMode_twice (a : App) :
  timer (switchMode (switchMode a)) =
    mkTimer (if isBreak (timer a) then breakDuration (settings a)
             else workDuration (settings a))
            0 false (isBreak (timer a)) None /\
  clickSwitchMode (switchMode a) = switchMode (switchMode a).
Proof.
  split.
  - unfold switchMode. simpl. rewrite negb_involutive.
    destruct (isBreak (timer a)); reflexivity.
  - reflexivity.
Qed.

Lemma intervalTicks_frame (s : Settings) (granted : bool) (n : nat) :
  forall a : App,
  intervalTicks n s granted a =
    setTimer (timer (intervalTicks n s granted a))
             (setTodos (todos (intervalTicks n s granted a)) a).
Proof.
  induction n as [|k IH]; intros a.
  - destruct a; reflexivity.
  - cbn [intervalTicks]. rewrite IH at 1.
    destruct (isActive (timer a)) eqn:Ha.
    + rewrite intervalTick_active by exact Ha. reflexivity.
    + rewrite intervalTick_stopped by exact Ha. reflexivity.
Qed.

(** While time remains one period takes one second off, whatever the
    seconds are. *)
Lemma countdown_step (s : Settings) (granted : bool) (a : App) :
  isActive (timer a) = true -> nonNegative (timer a) ->
  0 < remainingSeconds (timer a) ->
  let a' := fst (intervalTick s granted a) in
  todos a' = todos a /\
  isActive (timer a') = true /\
  isBreak (timer a') = isBreak (timer a) /\
  currentTaskId (timer a') = currentTaskId (timer a) /\
  remainingSeconds (timer a') = remainingSeconds (timer a) - 1 /\
  nonNegative (timer a').
Proof.
  intros Ha [Hm Hs] Hr a'. subst a'. rewrite intervalTick_active by exact Ha.
  cbn [todos timer setTimer setTodos]. rewrite tickTimer_eq, tickTodos_eq.
  unfold remainingSeconds, nonNegative in *.
  destruct (seconds (timer a) >? 0) eqn:Es.
  - gtb_to_Z. cbn [orb minutes seconds isActive isBreak currentTaskId].
    repeat split; auto; lia.
  - destruct (minutes (timer a) >? 0) eqn:Em; gtb_to_Z.
    + cbn [orb minutes seconds isActive isBreak currentTaskId].
      repeat split; auto; lia.
    + lia.
Qed.

Lemma countdown_steps (s : Settings) (granted : bool) (n : nat) :
  forall a : App,
  isActive (timer a) = true -> nonNegative (timer a) ->
  Z.of_nat n <= remainingSeconds (timer a) ->
  let a' := intervalTicks n s granted a in
  todos a' = todos a /\
  isActive (timer a') = true /\
  isBreak (timer a') = isBreak (timer a) /\
  currentTaskId (timer a') = currentTaskId (timer a) /\
  remainingSeconds (timer a') = remainingSeconds (timer a) - Z.of_nat n /\
  nonNegative (timer a').
Proof.
  induction n as [|k IH]; intros a Ha Hn Hr.
  - cbn [intervalTicks]. cbv zeta. repeat split; auto; try apply Hn; lia.
  - destruct (countdown_step s granted a Ha Hn ltac:(lia))
      as (Htd & Hact & Hbr & Hid & Hrem & Hn').
    destruct (IH (fst (intervalTick s granted a)) Hact Hn' ltac:(lia))
      as (Htd2 & Hact2 & Hbr2 & Hid2 & Hrem2 & Hn2).
    cbn [intervalTicks]. cbv zeta.
    rewrite Htd2, Hact2, Hbr2, Hid2, Hrem2, Htd, Hbr, Hid, Hrem.
    repeat split; auto; try apply Hn2; lia.
Qed.

(** Before a session ends no tick reads the settings. *)
Lemma intervalTick_before_end (s s' : Settings) (granted : bool) (a : App) :
  nonNegative (timer a) -> 0 < remainingSeconds (timer a) ->
  intervalTick s granted a = intervalTick s' granted a.
Proof.
  intros [Hm Hs] Hr. unfold intervalTick, tick, remainingSeconds in *.
  destruct (isActive (timer a)); [|reflexivity].
  destruct (seconds (timer a) >? 0) eqn:Es; [reflexivity|].
  destruct (minutes (timer a) >? 0) eqn:Em; [reflexivity|].
  gtb_to_Z. lia.
Qed.

Lemma intervalTicks_before_end (s s' : Settings) (granted : bool) (n : nat) :
  forall a : App,
  isActive (timer a) = true -> nonNegative (timer a) ->
  Z.of_nat n <= remainingSeconds (timer a) ->
  intervalTicks n s granted a = intervalTicks n s' granted a.
Proof.
  induction n as [|k IH]; intros a Ha Hn Hr; [reflexivity|].
  cbn [intervalTicks].
  rewrite (intervalTick_before_end s s' granted a Hn ltac:(lia)).
  destruct (countdown_step s' granted a Ha Hn ltac:(lia))
    as (_ & Hact & _ & _ & Hrem & Hn').
  apply IH; [exact Hact|exact Hn'|lia].
Qed.

Lemma intervalTicks_settings (s : Settings) (granted : bool) (n : nat) (a : App) :
  settings (intervalTicks n s granted a) = settings a.
Proof. rewrite (intervalTicks_frame s granted n a). reflexivity. Qed.

(** X7.  Pausing a running session and resuming it later loses and gains
    no time.  [s] is what the interval captured before the pause; the
    interval made at the resume captures the settings of that moment.
    While paused no interval changes anything, the second toggle gives
    back the state at the pause, and the settings at the resume are
    those of the start.  [k] periods before the pause and [m] after it
    leave the state that [k + m] periods without a pause leave, when the
    interval before the pause had captured the current settings, or when
    the session does not end within the [m] periods. *)
Theorem pause_resume_keeps_time (s : Settings) (granted : bool) (a : App)
    (k j m : nat) :
  isActive (timer (intervalTicks k s granted a)) = true ->
  let atPause := intervalTicks k s granted a in
  let paused := toggleTimer atPause in
  let resumed := toggleTimer paused in
  isActive (timer paused) = false /\
  minutes (timer paused) = minutes (timer atPause) /\
  seconds (timer paused) = seconds (timer atPause) /\
  (forall s' : Settings, intervalTicks j s' granted paused = paused) /\
  resumed = atPause /\
  settings resumed = settings a /\
  (s = settings a ->
     intervalTicks m (settings resumed) granted resumed =
       intervalTicks (k + m) s granted a) /\
  (nonNegative (timer atPause) ->
   Z.of_nat m <= remainingSeconds (timer atPause) ->
     intervalTicks m (settings resumed) granted resumed =
       intervalTicks (k + m) s granted a).
Proof.
  intros H atPause paused resumed.
  assert (Hp : isActive (timer paused) = false)
    by (unfold paused, atPause, toggleTimer; cbn [timer setTimer isActive];
        rewrite H; reflexivity).
  assert (Hr : resumed = atPause) by apply toggleTimer_twice.
  assert (Hs : settings resumed = settings a)
    by (rewrite Hr; apply intervalTicks_settings).
  split; [exact Hp|]. split; [reflexivity|]. split; [reflexivity|].
  split; [intros s'; apply intervalTicks_stopped; exact Hp|].
  split; [exact Hr|]. split; [exact Hs|]. split.
  - intros E. rewrite Hs, Hr, <- E. unfold atPause. symmetry.
    apply intervalTicks_add.
  - intros Hn Hm. rewrite Hs, Hr, intervalTicks_add. fold atPause.
    apply intervalTicks_before_end; assumption.
Qed.

Lemma pause_resume_keeps_time_witness :
  let stale := mkSettings 50 10 true false (1 # 2) in
  let atPause := intervalTicks 10 stale true runningApp in
  let resumed := toggleTimer (toggleTimer atPause) in
  isActive (timer atPause) = true /\
  settings resumed = initialSettings /\
  intervalTicks 20 (settings resumed) true resumed =
    intervalTicks (10 + 20) stale true runningApp.
Proof.
  cbv zeta.
  assert (Ha : isActive (timer (intervalTicks 10 (mkSettings 50 10 true false (1 # 2))
                                  true runningApp)) = true)
    by (vm_compute; reflexivity).
  destruct (pause_resume_keeps_time (mkSettings 50 10 true false (1 # 2)) true
              runningApp 10 300 20 Ha)
    as (_ & _ & _ & _ & _ & Hs & _ & H).
  cbv zeta in Hs, H.
  split; [exact Ha|]. split; [exact Hs|].
  apply H.
  - unfold nonNegative. vm_compute. split; discriminate.
  - vm_compute. discriminate.
Defined.

(** X9.  A running timer with [r] seconds left (any non-negative
    minutes and seconds, focus or break) keeps running for [r] periods
    of the interval, losing one second each and touching no task; every
    later state is the one the period after those leaves: the timer
    stopped, the kind flipped, the full duration of the new kind loaded,
    the task reference kept, and, at the end of a focus session with a
    task reference only, that task's count raised. *)
Theorem session_runs_out (s : Settings) (granted : bool) (a : App) :
  isActive (timer a) = true -> nonNegative (timer a) ->
  let t := timer a in
  let r := Z.to_nat (remainingSeconds t) in
  let ended :=
    setTimer (mkTimer (if isBreak t then workDuration s else breakDuration s)
                      0 false (negb (isBreak t)) (currentTaskId t))
      (setTodos (if negb (isBreak t) && truthyId (currentTaskId t)
                 then map (completePomodoro (currentTaskId t)) (todos a)
                 else todos a) a) in
  (forall k, (k <= r)%nat ->
     let a' := intervalTicks k s granted a in
     isActive (timer a') = true /\ todos a' = todos a /\
     isBreak (timer a') = isBreak t /\
     remainingSeconds (timer a') = remainingSeconds t - Z.of_nat k) /\
  (forall k, (r < k)%nat -> intervalTicks k s granted a = ended).
Proof.
  intros Ha Hn t r ended.
  assert (Hr0 : 0 <= remainingSeconds t)
    by (destruct Hn; unfold remainingSeconds, t; lia).
  split.
  - intros k Hk.
    destruct (countdown_steps s granted k a Ha Hn ltac:(fold t; lia))
      as (H1 & H2 & H3 & H4 & H5 & H6).
    cbv zeta. auto.
  - intros k Hk.
    replace k with (r + (1 + (k - r - 1)))%nat by lia.
    rewrite !intervalTicks_add.
    destruct (countdown_steps s granted r a Ha Hn ltac:(fold t; lia))
      as (H1 & H2 & H3 & H4 & H5 & [H6 H7]).
    cbv zeta in *. fold t in H3, H4, H5.
    set (af := intervalTicks r s granted a) in *.
    assert (Hz : remainingSeconds (timer af) = 0) by (rewrite H5; unfold r; lia).
    assert (Hm : minutes (timer af) = 0) by (unfold remainingSeconds in Hz; lia).
    assert (Hs : seconds (timer af) = 0) by (unfold remainingSeconds in Hz; lia).
    cbn [intervalTicks]. rewrite intervalTick_active by exact H2.
    rewrite intervalTicks_stopped.
    + rewrite tickTimer_eq, tickTodos_eq, Hm, Hs, H1, H3, H4.
      cbn [Z.gtb Z.compare orb].
      unfold af. rewrite (intervalTicks_frame s granted r a). fold af.
      subst ended. unfold setTimer, setTodos. cbn.
      destruct (isBreak t); reflexivity.
    + cbn [timer setTimer]. rewrite tickTimer_eq, Hm, Hs. reflexivity.
Qed.

Lemma session_runs_out_witness :
  let breakRunning := setTimer (mkTimer 0 90 true true (Some "t1")) twoTasks in
  timer (intervalTicks 90 initialSettings true breakRunning) =
    mkTimer 0 0 true true (Some "t1") /\
  timer (intervalTicks 91 initialSettings true breakRunning) =
    mkTimer 25 0 false false (Some "t1") /\
  todos (intervalTicks 500 initialSettings true breakRunning) = todos twoTasks.
Proof.
  cbv zeta.
  destruct (session_runs_out initialSettings true
              (setTimer (mkTimer 0 90 true true (Some "t1")) twoTasks))
    as (H1 & H2); [reflexivity|unfold nonNegative; simpl; lia|].
  cbv zeta in H1, H2. split; [reflexivity|]. split.
  - rewrite H2 by (simpl; lia). reflexivity.
  - rewrite H2 by (simpl; lia). reflexivity.
Defined.

(** X10.  A tick shows a notification only when it ends a session, the
    setting is on and the permission is granted: "Break Over!" at the
    end of a break, "Pomodoro Complete!" at the end of a focus session
    with a task reference, and nothing at the end of a focus session
    without one. *)
Theorem tick_notifications (s : Settings) (granted : bool)
    (t : PomodoroTimer) (td : list TodoItem) :
  tickEffects s granted t td =
    if (seconds t >? 0) || (minutes t >? 0) then []
    else if negb (notificationsEnabled s && granted) then []
    else if isBreak t then
      [Notification "Break Over!" "Ready to get back to work?"]
    else if truthyId (currentTaskId t) then
      [Notification "Pomodoro Complete!" "Great work! Time for a break."]
    else [].
Proof.
  unfold tickEffects, tick, showNotification.
  destruct (seconds t >? 0); [reflexivity|].
  destruct (minutes t >? 0); [reflexivity|].
  destruct (isBreak t), (truthyId (currentTaskId t)),
    (notificationsEnabled s && granted); reflexivity.
Qed.

(** X11.  Any settings update made while the timer is stopped, whatever
    keys it carries, sets the minutes to the configured duration of the
    current kind in the merged settings and leaves seconds, kind and
    task reference alone; applying the same update again changes
    nothing more. *)
Theorem updateSettings_idle (n : PartialSettings) (a : App) :
  isActive (timer a) = false ->
  let a' := updateSettings n a in
  settings a' = mergeSettings (settings a) n /\
  timer a' =
    mkTimer (if isBreak (timer a) then breakDuration (settings a')
             else workDuration (settings a'))
            (seconds (timer a)) false (isBreak (timer a))
            (currentTaskId (timer a)) /\
  updateSettings n a' = a'.
Proof.
  intros H a'. subst a'. unfold updateSettings. rewrite H.
  cbn [negb settings timer setSettings setTimer isActive isBreak seconds
       currentTaskId minutes].
  rewrite H. split; [reflexivity|]. split.
  - destruct (isBreak (timer a)); reflexivity.
  - cbn [negb]. unfold setTimer, setSettings. cbn.
    destruct n as [[w|] [b|] [ne|] [me|] [mv|]], (isBreak (timer a));
      reflexivity.
Qed.

Lemma updateSettings_idle_witness :
  timer (updateSettings (mkPartialSettings None None None (Some true) None)
           pausedMidSession) =
    mkTimer 25 34 false false (Some "1700000000000").
Proof.
  destruct (updateSettings_idle (mkPartialSettings None None None (Some true) None)
              pausedMidSession) as (_ & H & _); [reflexivity|].
  cbv zeta in H. rewrite H. reflexivity.
Defined.

(* ================================================================= *)
(** ** Trimming *)

Lemma trimEnd_idempotent (s : string) :
  JsString.trimEnd (JsString.trimEnd s) = JsString.trimEnd s.
Proof.
  induction s as [|c r IH]; [reflexivity|].
  cbn [JsString.trimEnd].
  destruct (JsString.trimEnd r) as [|c' r'] eqn:E.
  - destruct (JsString.isWhiteSpace c) eqn:W; [reflexivity|].
    cbn [JsString.trimEnd]. rewrite W. reflexivity.
  - cbn [JsString.trimEnd] in *. rewrite IH. reflexivity.
Qed.

Lemma trimStart_clean (s : string) : startsClean (JsString.trimStart s).
Proof.
  induction s as [|c r IH]; simpl; [exact I|].
  destruct (JsString.isWhiteSpace c) eqn:W; [exact IH|exact W].
Qed.

Lemma trimStart_of_clean (s : string) :
  startsClean s -> JsString.trimStart s = s.
Proof.
  destruct s as [|c r]; simpl; [reflexivity|]. intros W. rewrite W. reflexivity.
Qed.

Lemma trimEnd_clean (s : string) :
  startsClean s -> startsClean (JsString.trimEnd s).
Proof.
  destruct s as [|c r]; [intros; exact I|].
  cbn [startsClean JsString.trimEnd]. intros W. rewrite W.
  destruct (JsString.trimEnd r); exact W.
Qed.

Lemma trim_idempotent (s : string) :
  JsString.trim (JsString.trim s) = JsString.trim s.
Proof.
  unfold JsString.trim.
  rewrite (trimStart_of_clean _ (trimEnd_clean _ (trimStart_clean s))).
  apply trimEnd_idempotent.
Qed.

Lemma truthy_nonempty_iff (x : string) : JsString.truthy x = true <-> x <> "".
Proof. destruct x; simpl; split; congruence. Qed.

(* ================================================================= *)
(** ** Task list handlers *)

(** X12.  [clearAllTasks] does nothing on an empty registry or when the
    confirmation is refused.  Confirmed on a non-empty registry it
    empties the registry; it then clears the task reference and stops
    the timer when a task was referenced, and leaves the timer as it
    was, running or not, when none was. *)
Theorem clearAllTasks_outcomes (a : App) :
  clearAllTasks false a = a /\
  (todos a = [] -> clearAllTasks true a = a) /\
  todos (clearAllTasks true a) = [] /\
  (todos a <> [] -> truthyId (currentTaskId (timer a)) = true ->
     timer (clearAllTasks true a) =
       mkTimer (minutes (timer a)) (seconds (timer a)) false
               (isBreak (timer a)) None) /\
  (truthyId (currentTaskId (timer a)) = false ->
     timer (clearAllTasks true a) = timer a).
Proof.
  unfold clearAllTasks.
  destruct (todos a) as [|todo l] eqn:E.
  - repeat split; auto. congruence.
  - repeat split.
    + discriminate.
    + destruct (truthyId (currentTaskId (timer a))); reflexivity.
    + intros _ H. rewrite H. reflexivity.
    + intros H. rewrite H. reflexivity.
Qed.

Lemma clearAllTasks_outcomes_witness :
  todos (clearAllTasks true twoTasks) = [] /\
  timer (clearAllTasks true twoTasks) = mkTimer 7 30 false false None /\
  timer (clearAllTasks true (toggleTimer (setTodos (todos twoTasks) initialApp))) =
    mkTimer 25 0 true false None.
Proof.
  destruct (clearAllTasks_outcomes twoTasks) as (_ & _ & H3 & H4 & _).
  destruct (clearAllTasks_outcomes
              (toggleTimer (setTodos (todos twoTasks) initialApp)))
    as (_ & _ & _ & _ & H5).
  split; [exact H3|]. split.
  - apply H4; [discriminate|reflexivity].
  - rewrite H5 by reflexivity. reflexivity.
Defined.

Lemma same_id_same_todo (l : list TodoItem) (x y : TodoItem) :
  NoDup (map todo_id l) -> In x l -> In y l -> todo_id x = todo_id y -> x = y.
Proof.
  induction l as [|t l IH]; intros Hnd Hx Hy E; [contradiction|].
  simpl in Hnd. inversion Hnd as [|? ? Hnin Hnd']; subst.
  destruct Hx as [Hx|Hx], Hy as [Hy|Hy]; subst.
  - reflexivity.
  - exfalso. apply Hnin. rewrite E. apply in_map. exact Hy.
  - exfalso. apply Hnin. rewrite <- E. apply in_map. exact Hx.
  - apply IH; assumption.
Qed.

(** X13.  [saveTaskEdit] changes nothing and keeps the editor open when
    no task is being edited or the title is blank.  Otherwise it closes
    the editor and rewrites, in place, the trimmed title and the
    estimate of the tasks with the edited id; ids, completed counts,
    done flags, the other tasks and the timer stay.  Opening the editor
    on a task of a registry with distinct ids and saving at once leaves
    the registry as it was when the title is already trimmed. *)
Theorem saveTaskEdit_outcomes (e : Editing) (a : App) :
  (editingTaskId e = None \/ JsString.allWhiteSpace (editingTitle e) = true ->
     saveTaskEdit e a = (a, e)) /\
  (truthyId (editingTaskId e) = true ->
   JsString.allWhiteSpace (editingTitle e) = false ->
     snd (saveTaskEdit e a) = mkEditing None "" 1 /\
     timer (fst (saveTaskEdit e a)) = timer a /\
     Forall2 (fun old new =>
                todo_id new = todo_id old /\
                completedPomodoros new = completedPomodoros old /\
                isCompleted new = isCompleted old /\
                (if idIs (editingTaskId e) (todo_id old)
                 then title new = JsString.trim (editingTitle e) /\
                      estimatedPomodoros new = editingPomodoros e
                 else new = old))
             (todos a) (todos (fst (saveTaskEdit e a)))) /\
  (forall task, NoDup (map todo_id (todos a)) -> In task (todos a) ->
     todo_id task <> "" -> title task <> "" ->
     JsString.trim (title task) = title task ->
     saveTaskEdit (startEditingTask task) a = (a, mkEditing None "" 1)).
Proof.
  split; [|split].
  - unfold saveTaskEdit. rewrite truthy_trim.
    intros [H|H]; rewrite H; [reflexivity|].
    cbn [negb]. rewrite orb_true_r. reflexivity.
  - intros Hid Hw. unfold saveTaskEdit. rewrite truthy_trim, Hid, Hw.
    cbn [negb orb fst snd timer setTodos todos cancelTaskEdit].
    split; [reflexivity|]. split; [reflexivity|].
    induction (todos a) as [|todo l IH]; simpl; constructor; [|exact IH].
    destruct (idIs (editingTaskId e) (todo_id todo)); simpl; auto.
  - intros task Hnd Hin Hid Hne Htrim.
    unfold saveTaskEdit, startEditingTask.
    cbn [editingTaskId editingTitle editingPomodoros truthyId].
    rewrite Htrim.
    rewrite (proj2 (truthy_nonempty_iff _) Hid), (proj2 (truthy_nonempty_iff _) Hne).
    cbn [negb orb]. unfold cancelTaskEdit. f_equal.
    transitivity (setTodos (todos a) a); [|destruct a; reflexivity].
    f_equal. rewrite <- (map_id (todos a)) at 2.
    apply map_ext_in. intros todo Ht.
    destruct (idIs (Some (todo_id task)) (todo_id todo)) eqn:E; [|reflexivity].
    simpl in E. apply String.eqb_eq in E.
    rewrite (same_id_same_todo (todos a) task todo Hnd Hin Ht E).
    destruct todo; reflexivity.
Qed.

Lemma saveTaskEdit_outcomes_witness :
  todos (fst (saveTaskEdit (mkEditing (Some "t2") " read more  " 4) twoTasks)) =
    [mkTodo "t1" "write" 2 0 false; mkTodo "t2" "read more" 4 0 false] /\
  saveTaskEdit (startEditingTask (mkTodo "t2" "read" 1 0 false)) twoTasks =
    (twoTasks, mkEditing None "" 1) /\
  saveTaskEdit (mkEditing (Some "t2") "  " 4) twoTasks =
    (twoTasks, mkEditing (Some "t2") "  " 4).
Proof.
  destruct (saveTaskEdit_outcomes (mkEditing (Some "t2") "  " 4) twoTasks)
    as (H1 & _ & _).
  destruct (saveTaskEdit_outcomes
              (startEditingTask (mkTodo "t2" "read" 1 0 false)) twoTasks)
    as (_ & _ & H3).
  split; [reflexivity|]. split.
  - apply H3.
    + repeat constructor; simpl; intuition discriminate.
    + simpl. auto.
    + discriminate.
    + discriminate.
    + reflexivity.
  - apply H1. right. reflexivity.
Defined.

(** X14.  Ticking a task done and ticking it again gives back the state;
    the done flag is no part of the session: the timer is not touched,
    also when the task is the one the running session works on. *)
Theorem toggleTodoComplete_twice (id : string) (a : App) :
  toggleTodoComplete id (toggleTodoComplete id a) = a /\
  timer (toggleTodoComplete id a) = timer a.
Proof.
  split; [|reflexivity].
  unfold toggleTodoComplete. cbn [todos setTodos].
  transitivity (setTodos (todos a) a); [|destruct a; reflexivity].
  unfold setTodos. cbn. f_equal.
  rewrite map_map. rewrite <- (map_id (todos a)) at 2.
  apply map_ext. intros todo.
  destruct (String.eqb (todo_id todo) id) eqn:E; cbn [todo_id].
  - rewrite E. cbn. rewrite negb_involutive. destruct todo; reflexivity.
  - rewrite E. reflexivity.
Qed.

(* ================================================================= *)
(** ** What every sequence of events keeps *)

Ltac unfold_handlers :=
  unfold clickSwitchMode, clickStartPomodoro, switchMode, startPomodoroForTask,
    toggleTimer, resetTimer, updateSettings, addTodo, deleteTodo,
    toggleTodoComplete, clearAllTasks, saveTaskEdit, addYouTubeTrack,
    removeTrack, nextTrack, previousTrack, toggleMusic, autoPlay, playMusic,
    pauseMusic, clearedTimer.

Ltac break_branch :=
  match goal with
  | |- context [if ?c then _ else _] => destruct c eqn:?
  | |- context [match ?x with _ => _ end] => destruct x eqn:?
  end.

Ltac project :=
  cbn [fst snd todos timer settings youtubePlaylist currentTrack isPlaying
       youtubePlayer newTodoTitle newTodoPomodoros newYoutubeUrl
       setTodos setTimer setSettings setYoutubePlaylist setCurrentTrack
       setIsPlaying setNewTodoTitle setNewTodoPomodoros setNewYoutubeUrl
       minutes seconds isActive isBreak currentTaskId].

Lemma run_invariant (P : App -> Prop) (W : Event -> Prop) :
  (forall e a, W e -> P a -> P (handle e a)) ->
  forall es a, Forall W es -> P a -> P (run es a).
Proof.
  intros Hstep es. induction es as [|e es IH]; intros a Hw Ha; [exact Ha|].
  inversion Hw; subst. cbn [run]. apply IH; [assumption|].
  apply Hstep; assumption.
Qed.

(** Which cells an event can write. *)
Lemma handle_frame (e : Event) (a : App) :
  (isPlaylistEvent e = true ->
     todos (handle e a) = todos a /\ settings (handle e a) = settings a /\
     timer (handle e a) = timer a) /\
  (isPlaylistEvent e = false ->
     youtubePlaylist (handle e a) = youtubePlaylist a /\
     currentTrack (handle e a) = currentTrack a /\
     isPlaying (handle e a) = isPlaying a).
Proof.
  split; intros H; destruct e; try discriminate H; cbn [handle].
  all: try (unfold intervalTick; destruct (isActive (timer a));
            [destruct (tick captured granted (timer a) (todos a)) as [[? ?] ?]|]).
  all: unfold_handlers; repeat break_branch; project; repeat split.
Qed.

(** X15.  The playlist and music controls never change the registry, the
    settings or the timer; every other event never changes the playlist,
    the current index or the playing flag. *)
Theorem aggregates_independent (e : Event) (a : App) :
  (isPlaylistEvent e = true ->
     todos (handle e a) = todos a /\ settings (handle e a) = settings a /\
     timer (handle e a) = timer a) /\
  (isPlaylistEvent e = false ->
     youtubePlaylist (handle e a) = youtubePlaylist a /\
     currentTrack (handle e a) = currentTrack a /\
     isPlaying (handle e a) = isPlaying a).
Proof.
  split; intros H; destruct e; try discriminate H; cbn [handle].
  all: try (unfold intervalTick; destruct (isActive (timer a));
            [destruct (tick captured granted (timer a) (todos a)) as [[? ?] ?]|]).
  all: unfold_handlers; repeat break_branch; project; repeat split.
Qed.

Lemma aggregates_independent_witness :
  timer (handle NextTrack (setCurrentTrack 0 (setTimer (timer twoTasks) threeTracks))) =
    timer twoTasks /\
  youtubePlaylist (handle (Tick initialSettings true)
                     (setTimer (timer twoTasks) threeTracks)) =
    youtubePlaylist threeTracks.
Proof.
  destruct (aggregates_independent NextTrack
              (setCurrentTrack 0 (setTimer (timer twoTasks) threeTracks)))
    as [H1 _].
  destruct (aggregates_independent (Tick initialSettings true)
              (setTimer (timer twoTasks) threeTracks)) as [_ H2].
  split.
  - apply H1. reflexivity.
  - apply H2. reflexivity.
Defined.

Lemma handle_clockOk (e : Event) (a : App) : clockOk a -> clockOk (handle e a).
Proof.
  unfold clockOk. intros H.
  destruct (isPlaylistEvent e) eqn:P.
  { destruct (handle_frame e a) as [F _].
    destruct (F P) as (_ & _ & ->). exact H. }
  destruct e; try discriminate P; cbn [handle].
  { destruct (isActive (timer a)) eqn:Ha.
    - rewrite intervalTick_active by exact Ha. project. rewrite tickTimer_eq.
      destruct (seconds (timer a) >? 0) eqn:Es; gtb_to_Z; [project; lia|].
      destruct (minutes (timer a) >? 0); project; lia.
    - rewrite intervalTick_stopped by exact Ha. exact H. }
  all: unfold_handlers; repeat break_branch; project; lia.
Qed.

(** X16.  From a state whose seconds are between 0 and 59, such as the
    initial one, every sequence of events, whatever they carry, leads
    to a state whose seconds are between 0 and 59. *)
Theorem seconds_stay_on_the_clock (es : list Event) (a : App) :
  clockOk a -> clockOk (run es a).
Proof.
  intros H. apply (run_invariant clockOk (fun _ => True)).
  - intros e b _. apply handle_clockOk.
  - clear. induction es; constructor; auto.
  - exact H.
Qed.

Lemma seconds_stay_on_the_clock_witness :
  clockOk initialApp /\
  clockOk (run [UpdateSettings (onlyWorkDuration (-3)); ToggleTimer;
                Tick initialSettings true; Tick initialSettings false;
                ToggleTimer; SwitchMode] initialApp).
Proof.
  assert (H : clockOk initialApp) by (unfold clockOk; simpl; lia).
  split; [exact H|]. apply seconds_stay_on_the_clock. exact H.
Defined.

Lemma ids_completePomodoro (x : option string) (l : list TodoItem) :
  map todo_id (map (completePomodoro x) l) = map todo_id l.
Proof.
  rewrite map_map. apply map_ext. intros todo. unfold completePomodoro.
  destruct (idIs x (todo_id todo)); reflexivity.
Qed.

Lemma ids_tickTodos (s : Settings) (granted : bool) (t : PomodoroTimer)
    (td : list TodoItem) :
  map todo_id (tickTodos s granted t td) = map todo_id td.
Proof.
  rewrite tickTodos_eq. destruct (_ || _); [reflexivity|].
  destruct (_ && _); [apply ids_completePomodoro|reflexivity].
Qed.

Lemma ids_filter (id x : string) (l : list TodoItem) :
  In x (map todo_id (filter (fun todo => negb (String.eqb (todo_id todo) id)) l)) <->
  In x (map todo_id l) /\ x <> id.
Proof.
  rewrite !in_map_iff. split.
  - intros (todo & E & I). apply filter_In in I as [I N].
    apply negb_true_iff, String.eqb_neq in N. subst x. eauto.
  - intros ((todo & E & I) & N). exists todo. split; [exact E|].
    apply filter_In. split; [exact I|].
    apply negb_true_iff, String.eqb_neq. congruence.
Qed.

Lemma handle_taskRefOk (e : Event) (a : App) :
  stampOk e -> taskRefOk a -> taskRefOk (handle e a).
Proof.
  unfold taskRefOk. intros Hw [Hne Href].
  destruct (isPlaylistEvent e) eqn:P.
  { destruct (handle_frame e a) as [F _].
    destruct (F P) as (-> & _ & ->). auto. }
  destruct e; try discriminate P; cbn [handle].
  - (* Tick *)
    destruct (isActive (timer a)) eqn:Ha.
    + rewrite intervalTick_active by exact Ha. project.
      rewrite ids_tickTodos, tick_currentTaskId. auto.
    + rewrite intervalTick_stopped by exact Ha. auto.
  - auto.
  - auto.
  - (* AddTodo *)
    unfold addTodo. destruct (JsString.truthy _); [|auto]. project.
    rewrite map_app. cbn [map todo_id]. split.
    + rewrite in_app_iff. cbn [In]. simpl in Hw. intuition congruence.
    + intros id H. rewrite in_app_iff. auto.
  - (* DeleteTodo *)
    unfold deleteTodo, clearedTimer.
    destruct (idIs (currentTaskId (timer a)) id) eqn:E; project.
    + split; [rewrite ids_filter; tauto|discriminate].
    + split; [rewrite ids_filter; tauto|].
      intros id' H. rewrite ids_filter. split; [auto|].
      intros ->. rewrite H in E. simpl in E. rewrite String.eqb_refl in E.
      discriminate.
  - (* ToggleTodoComplete *)
    unfold toggleTodoComplete. project.
    assert (Hids : forall l,
               map todo_id
                 (map (fun todo =>
                         if String.eqb (todo_id todo) id
                         then mkTodo (todo_id todo) (title todo)
                                     (estimatedPomodoros todo)
                                     (completedPomodoros todo)
                                     (negb (isCompleted todo))
                         else todo) l) = map todo_id l).
    { intros l. rewrite map_map. apply map_ext. intros todo.
      destruct (String.eqb (todo_id todo) id); reflexivity. }
    rewrite Hids. auto.
  - (* SaveTaskEdit *)
    unfold saveTaskEdit. destruct (_ || _); project; [auto|].
    assert (Hids : forall l,
               map todo_id
                 (map (fun todo =>
                         if idIs (editingTaskId e) (todo_id todo)
                         then mkTodo (todo_id todo) (JsString.trim (editingTitle e))
                                     (editingPomodoros e)
                                     (completedPomodoros todo) (isCompleted todo)
                         else todo) l) = map todo_id l).
    { intros l. rewrite map_map. apply map_ext. intros todo.
      destruct (idIs (editingTaskId e) (todo_id todo)); reflexivity. }
    rewrite Hids. auto.
  - (* ClearAllTasks *)
    unfold clearAllTasks, clearedTimer.
    destruct (todos a) as [|todo l] eqn:Etd; [rewrite Etd; auto|].
    destruct confirmed; [|rewrite Etd; auto].
    destruct (truthyId (currentTaskId (timer a))) eqn:Et; project.
    + split; [auto|discriminate].
    + split; [auto|]. intros id H. exfalso.
      rewrite H in Et. simpl in Et. destruct id; [|discriminate].
      apply Hne. apply Href. exact H.
  - (* StartPomodoro *)
    destruct (nth_error (todos a) row) as [todo|] eqn:N; [|auto].
    destruct (isCompleted todo); [auto|].
    unfold clickStartPomodoro, startPomodoroForTask.
    destruct (isActive (timer a)); [auto|]. project.
    split; [auto|]. intros id H. injection H as <-.
    apply in_map. eapply nth_error_In. exact N.
  - auto.
  - auto.
  - (* SwitchMode *)
    unfold clickSwitchMode, switchMode.
    destruct (isActive (timer a)); [auto|]. project.
    split; [auto|]. destruct (negb (isBreak (timer a))); [discriminate|auto].
  - (* UpdateSettings *)
    unfold updateSettings. destruct (negb (isActive (timer a))); project; auto.
Qed.

(** X17.  When the session's task reference names a task of the
    registry (or is null) and no task has the empty id, the same holds
    after every sequence of events in which tasks are created with a
    non-empty time stamp: the reference never points at a task that was
    deleted or cleared. *)
Theorem task_reference_never_dangles (es : list Event) (a : App) :
  Forall stampOk es -> taskRefOk a -> taskRefOk (run es a).
Proof.
  apply (run_invariant taskRefOk stampOk). exact handle_taskRefOk.
Qed.

Lemma task_reference_never_dangles_witness :
  currentTaskId
    (timer (run [TypeTitle "write"; AddTodo "1700000000004"; StartPomodoro 0;
                 DeleteTodo "1700000000004"] initialApp)) = None /\
  taskRefOk (run [TypeTitle "write"; AddTodo "1700000000004"; StartPomodoro 0;
                  TypeTitle "read"; AddTodo "1700000000005";
                  ClearAllTasks true] initialApp).
Proof.
  split; [reflexivity|].
  apply task_reference_never_dangles.
  - repeat constructor; discriminate.
  - split; [simpl; tauto|discriminate].
Defined.

Lemma todoOk_completePomodoro (x : option string) (todo : TodoItem) :
  todoOk todo -> todoOk (completePomodoro x todo).
Proof.
  unfold todoOk, completePomodoro. intros (H1 & H2 & H3).
  destruct (idIs x (todo_id todo)); cbn [title completedPomodoros];
    repeat split; auto; lia.
Qed.

Lemma Forall_map_same {A} (P : A -> Prop) (f : A -> A) (l : list A) :
  (forall x, P x -> P (f x)) -> Forall P l -> Forall P (map f l).
Proof.
  intros Hf H. induction H; simpl; constructor; auto.
Qed.

Lemma Forall_filter_same {A} (P : A -> Prop) (f : A -> bool) (l : list A) :
  Forall P l -> Forall P (filter f l).
Proof.
  intros H. induction H; simpl; [constructor|].
  destruct (f x); [constructor|]; auto.
Qed.

Lemma handle_todosOk (e : Event) (a : App) :
  Forall todoOk (todos a) -> Forall todoOk (todos (handle e a)).
Proof.
  intros H.
  destruct (isPlaylistEvent e) eqn:P.
  { destruct (handle_frame e a) as [F _].
    destruct (F P) as (-> & _ & _). exact H. }
  destruct e; try discriminate P; cbn [handle].
  - (* Tick *)
    destruct (isActive (timer a)) eqn:Ha.
    + rewrite intervalTick_active by exact Ha. project. rewrite tickTodos_eq.
      destruct (_ || _); [exact H|].
      destruct (_ && _); [|exact H].
      apply Forall_map_same; [apply todoOk_completePomodoro|exact H].
    + rewrite intervalTick_stopped by exact Ha. exact H.
  - exact H.
  - exact H.
  - (* AddTodo *)
    unfold addTodo. destruct (JsString.truthy _) eqn:T; [|exact H]. project.
    apply Forall_app. split; [exact H|]. constructor; [|constructor].
    unfold todoOk. cbn [title completedPomodoros].
    split; [apply trim_idempotent|]. split; [|lia].
    apply truthy_nonempty_iff. exact T.
  - (* DeleteTodo *)
    unfold deleteTodo. destruct (idIs _ _); project;
      apply Forall_filter_same; exact H.
  - (* ToggleTodoComplete *)
    unfold toggleTodoComplete. project.
    apply Forall_map_same; [|exact H]. intros todo Ht.
    destruct (String.eqb (todo_id todo) id); exact Ht.
  - (* SaveTaskEdit *)
    unfold saveTaskEdit.
    destruct (negb (truthyId (editingTaskId e))); cbn [orb]; [exact H|].
    destruct (JsString.truthy (JsString.trim (editingTitle e))) eqn:T;
      cbn [negb]; [|exact H].
    project. apply Forall_map_same; [|exact H]. intros todo (H1 & H2 & H3).
    destruct (idIs (editingTaskId e) (todo_id todo)); [|repeat split; auto].
    unfold todoOk. cbn [title completedPomodoros].
    split; [apply trim_idempotent|]. split; [|exact H3].
    apply truthy_nonempty_iff. exact T.
  - (* ClearAllTasks *)
    unfold clearAllTasks. destruct (todos a) eqn:Etd; [rewrite Etd; constructor|].
    destruct confirmed; [|rewrite Etd; exact H].
    destruct (truthyId _); project; constructor.
  - (* StartPomodoro *)
    destruct (nth_error (todos a) row) as [todo|]; [|exact H].
    destruct (isCompleted todo); [exact H|].
    unfold clickStartPomodoro. destruct (isActive (timer a)); exact H.
  - exact H.
  - exact H.
  - unfold clickSwitchMode. destruct (isActive (timer a)); exact H.
  - unfold updateSettings. destruct (negb (isActive (timer a))); exact H.
Qed.

(** X18.  When every task of the registry has a trimmed, non-empty
    title and a completed count that is not negative, every sequence of
    events leaves a registry of such tasks: no handler stores a blank or
    untrimmed title, and none lowers a count below zero. *)
Theorem registry_stays_wellformed (es : list Event) (a : App) :
  Forall todoOk (todos a) -> Forall todoOk (todos (run es a)).
Proof.
  intros H.
  apply (run_invariant (fun b => Forall todoOk (todos b)) (fun _ => True)).
  - intros e b _. apply handle_todosOk.
  - clear. induction es; constructor; auto.
  - exact H.
Qed.

Lemma registry_stays_wellformed_witness :
  todos (run [TypeTitle "  write  "; AddTodo "1700000000006";
              SaveTaskEdit (mkEditing (Some "1700000000006") " draft " 2);
              SaveTaskEdit (mkEditing (Some "1700000000006") "   " 5);
              TypeTitle " "; AddTodo "1700000000007"] initialApp) =
    [mkTodo "1700000000006" "draft" 2 0 false] /\
  Forall todoOk
    (todos (run [TypeTitle "  write  "; AddTodo "1700000000006"; StartPomodoro 0;
                 Tick initialSettings true] initialApp)).
Proof.
  split; [reflexivity|].
  apply registry_stays_wellformed. constructor.
Defined.

Lemma handle_tracksOk (e : Event) (a : App) :
  Forall trackOk (youtubePlaylist a) -> Forall trackOk (youtubePlaylist (handle e a)).
Proof.
  intros H.
  destruct (isPlaylistEvent e) eqn:P.
  2: { destruct (handle_frame e a) as [_ F].
       destruct (F P) as (-> & _ & _). exact H. }
  destruct e; try discriminate P; cbn [handle].
  - exact H.
  - (* AddYouTubeTrack *)
    unfold addYouTubeTrack.
    destruct (negb (JsString.truthy _)); [exact H|].
    destruct (extractVideoId (newYoutubeUrl a)) as [v|] eqn:E;
      cbn [truthyId negb orElse]; [|exact H].
    destruct (JsString.truthy v); cbn [negb]; [|exact H]. project.
    apply Forall_app. split; [exact H|]. constructor; [|constructor].
    unfold trackOk. cbn [url videoId track_title]. auto.
  - (* RemoveTrackRow *)
    destruct (nth_error (youtubePlaylist a) row) as [track|]; [|exact H].
    unfold removeTrack. destruct (_ <=? 1); [|destruct (_ >=? _)]; project;
      apply Forall_filter_same; exact H.
  - unfold nextTrack. destruct (_ =? 0); exact H.
  - unfold previousTrack. destruct (_ =? 0); exact H.
  - unfold toggleMusic, playMusic, pauseMusic.
    repeat break_branch; exact H.
  - unfold autoPlay, playMusic, pauseMusic.
    repeat break_branch; exact H.
Qed.

(** X19.  When every track's identifier is the one [extractVideoId]
    finds in the URL stored with it, and its title is [YouTube Video]
    followed by that identifier, the same holds after every sequence of
    events; with it no track has an empty identifier or one holding
    [&], [?], [#] or a line feed. *)
Theorem playlist_stays_wellformed (es : list Event) (a : App) :
  Forall trackOk (youtubePlaylist a) ->
  Forall trackOk (youtubePlaylist (run es a)) /\
  Forall (fun track => videoId track <> "" /\ allIdChars (videoId track) = true)
         (youtubePlaylist (run es a)).
Proof.
  intros H.
  assert (Hr : Forall trackOk (youtubePlaylist (run es a))).
  { apply (run_invariant (fun b => Forall trackOk (youtubePlaylist b))
                         (fun _ => True)).
    - intros e b _. apply handle_tracksOk.
    - clear. induction es; constructor; auto.
    - exact H. }
  split; [exact Hr|].
  eapply Forall_impl; [|exact Hr]. intros track [E _].
  destruct (firstMatch_some _ _ _ E) as [H1 H2]. auto.
Qed.

Lemma playlist_stays_wellformed_witness :
  map videoId
    (youtubePlaylist
       (run [TypeUrl "https://example.com/watch"; AddYouTubeTrack "1";
             TypeUrl "https://youtu.be/abc123?t=1"; AddYouTubeTrack "2";
             TypeUrl "https://www.youtube.com/v/xyz_-9"; AddYouTubeTrack "3";
             RemoveTrackRow 0] initialApp)) = ["xyz_-9"] /\
  Forall trackOk
    (youtubePlaylist
       (run [TypeUrl "https://youtu.be/abc123?t=1"; AddYouTubeTrack "2";
             NextTrack] initialApp)).
Proof.
  split; [reflexivity|].
  apply playlist_stays_wellformed. constructor.
Defined.

Lemma handle_nonNegative (e : Event) (a : App) :
  carriesDurationsOk e ->
  durationsOk (settings a) /\ nonNegative (timer a) ->
  durationsOk (settings (handle e a)) /\ nonNegative (timer (handle e a)).
Proof.
  intros Hw [[Hsw Hsb] Hn].
  destruct (isPlaylistEvent e) eqn:P.
  { destruct (handle_frame e a) as [F _].
    destruct (F P) as (_ & -> & ->). repeat split; auto; apply Hn. }
  destruct (handlers_keep_nonNegative a Hsw Hsb Hn)
    as (Hstart & Htoggle & Hreset & Hswitch & Hdelete & Hclear & Hupdate).
  destruct e; try discriminate P; cbn [handle].
  - (* Tick *)
    destruct Hw as [Hcw Hcb].
    destruct (isActive (timer a)) eqn:Ha.
    + rewrite intervalTick_active by exact Ha. project.
      split; [split; assumption|]. apply tick_nonNegative; assumption.
    + rewrite intervalTick_stopped by exact Ha. repeat split; auto; apply Hn.
  - repeat split; auto; apply Hn.
  - repeat split; auto; apply Hn.
  - unfold addTodo. destruct (JsString.truthy _); repeat split; auto; apply Hn.
  - split; [|apply Hdelete]. unfold deleteTodo.
    destruct (idIs _ _); split; assumption.
  - repeat split; auto; apply Hn.
  - unfold saveTaskEdit. destruct (_ || _); repeat split; auto; apply Hn.
  - split; [|apply Hclear]. unfold clearAllTasks.
    destruct (todos a); [split; assumption|].
    destruct confirmed; [|split; assumption].
    destruct (truthyId _); split; assumption.
  - destruct (nth_error (todos a) row) as [todo|];
      [|repeat split; auto; apply Hn].
    destruct (isCompleted todo); [repeat split; auto; apply Hn|].
    unfold clickStartPomodoro.
    destruct (isActive (timer a)); [repeat split; auto; apply Hn|].
    split; [split; assumption|apply Hstart].
  - split; [split; assumption|apply Htoggle].
  - split; [split; assumption|apply Hreset].
  - unfold clickSwitchMode.
    destruct (isActive (timer a)); [repeat split; auto; apply Hn|].
    split; [split; assumption|apply Hswitch].
  - destruct Hw as [Hnw Hnb]. split; [|apply Hupdate; assumption].
    unfold updateSettings, durationsOk.
    destruct (negb (isActive (timer a))); project;
      unfold mergeSettings; cbn [workDuration breakDuration];
      destruct (p_workDuration n), (p_breakDuration n); simpl in *; lia.
Qed.

(** X20.  From a state with non-negative configured durations and a
    non-negative remaining time, such as the initial one, every sequence
    of events whose settings updates carry non-negative durations, and
    whose ticks run with such settings, leads to a state with
    non-negative durations and a remaining time whose minutes and
    seconds are not negative. *)
Theorem remaining_time_never_negative (es : list Event) (a : App) :
  Forall carriesDurationsOk es ->
  durationsOk (settings a) -> nonNegative (timer a) ->
  durationsOk (settings (run es a)) /\ nonNegative (timer (run es a)).
Proof.
  intros Hw Hs Hn.
  apply (run_invariant
           (fun b => durationsOk (settings b) /\ nonNegative (timer b))
           carriesDurationsOk); auto.
  exact handle_nonNegative.
Qed.

Lemma remaining_time_never_negative_witness :
  timer (run [UpdateSettings (onlyWorkDuration 0); ToggleTimer;
              Tick initialSettings true; ToggleTimer;
              Tick initialSettings true] initialApp) =
    mkTimer 4 59 true true None /\
  nonNegative
    (timer (run [UpdateSettings (onlyWorkDuration 0); ToggleTimer;
                 Tick initialSettings true; ToggleTimer;
                 Tick initialSettings true; Tick initialSettings true]
              initialApp)).
Proof.
  split; [reflexivity|].
  apply remaining_time_never_negative.
  - repeat constructor; simpl; lia.
  - unfold durationsOk. simpl. lia.
  - unfold nonNegative. simpl. lia.
Defined.

(* ================================================================= *)
(** ** Reload *)

(** X21.  The load effect treats the four storage slots one by one: a
    slot that is absent or does not parse leaves its own cell as it
    was, a slot that parses replaces it (the timer merged key by key and
    stopped), and no slot has any effect on the cell of another or on
    the cells that are not stored. *)
Theorem load_slot_by_slot (savedTodos : Slot (list TodoItem))
    (savedSettings : Slot Settings) (savedTimer : Slot PartialTimer)
    (savedPlaylist : Slot (list YouTubeTrack)) (a : App) :
  let a' := load savedTodos savedSettings savedTimer savedPlaylist a in
  todos a' = match savedTodos with Parsed v => v | _ => todos a end /\
  settings a' = match savedSettings with Parsed v => v | _ => settings a end /\
  timer a' = match savedTimer with
             | Parsed p => restoreTimer (timer a) p
             | _ => timer a
             end /\
  youtubePlaylist a' =
    match savedPlaylist with Parsed v => v | _ => youtubePlaylist a end /\
  currentTrack a' = currentTrack a /\ isPlaying a' = isPlaying a /\
  youtubePlayer a' = youtubePlayer a /\
  newTodoTitle a' = newTodoTitle a /\ newTodoPomodoros a' = newTodoPomodoros a /\
  newYoutubeUrl a' = newYoutubeUrl a.
Proof.
  cbv zeta. unfold load.
  destruct savedTodos, savedSettings, savedTimer, savedPlaylist;
    repeat split.
Qed.

(** X22.  Saving a state and mounting the component again gives back the
    registry, the settings, the playlist and the timer, the timer
    stopped; the current track index, the playing flag and the three
    inputs start from their defaults.  A second save and reload changes
    nothing more. *)
Theorem save_then_mount (a : App) :
  mount (save a) =
    mkApp (todos a) "" 1 (settings a)
          (mkTimer (minutes (timer a)) (seconds (timer a)) false
                   (isBreak (timer a)) (currentTaskId (timer a)))
          0 false false (youtubePlaylist a) "" /\
  mount (save (mount (save a))) = mount (save a).
Proof.
  split; reflexivity.
Qed.

(* ================================================================= *)
(** ** Music *)

(** X23.  With a player present, after the auto-play effect music plays
    exactly when music is enabled, the timer runs, the session is a
    focus session and the playlist is not empty, and the player got the
    matching call; a press on the play button pauses when playing and
    otherwise starts only if music is enabled and the playlist is not
    empty.  Without a player both change nothing and call nothing. *)
Theorem music_follows_session (a : App) :
  let wanted :=
    musicEnabled (settings a) && isActive (timer a) && negb (isBreak (timer a))
    && (Z.of_nat (List.length (youtubePlaylist a)) >? 0) in
  let playable :=
    musicEnabled (settings a)
    && (Z.of_nat (List.length (youtubePlaylist a)) >? 0) in
  (youtubePlayer a = true ->
     fst (autoPlay a) = setIsPlaying wanted a /\
     snd (autoPlay a) = (if wanted then [PlayVideo] else [PauseVideo]) /\
     isPlaying (fst (toggleMusic a)) =
       (if isPlaying a then false else playable)) /\
  (youtubePlayer a = false ->
     autoPlay a = (a, []) /\ toggleMusic a = (a, [])).
Proof.
  cbv zeta. split; intros H.
  - unfold autoPlay, toggleMusic, playMusic, pauseMusic. rewrite H.
    destruct (musicEnabled (settings a)), (isActive (timer a)),
      (isBreak (timer a)), (_ >? 0), (isPlaying a) eqn:E;
      cbn; rewrite ?E; repeat split; reflexivity.
  - unfold autoPlay, toggleMusic, playMusic, pauseMusic. rewrite H.
    cbn [andb]. repeat break_branch; split; reflexivity.
Qed.

Lemma music_follows_session_witness :
  let focusWithMusic :=
    mkApp [] "" 1 (mkSettings 25 5 true true (1 # 2))
          (mkTimer 25 0 true false None) 0 false true
          [abc123Track "1" "https://youtu.be/abc123"] "" in
  isPlaying (fst (autoPlay focusWithMusic)) = true /\
  isPlaying (fst (autoPlay (fst (intervalTick initialSettings true
                                   (setTimer (mkTimer 0 0 true false None)
                                      focusWithMusic))))) = false.
Proof.
  cbv zeta. split.
  - destruct (music_follows_session
                (mkApp [] "" 1 (mkSettings 25 5 true true (1 # 2))
                   (mkTimer 25 0 true false None) 0 false true
                   [abc123Track "1" "https://youtu.be/abc123"] ""))
      as [H _].
    destruct (H eq_refl) as (H1 & _). rewrite H1. reflexivity.
  - reflexivity.
Defined.

(* ================================================================= *)
(** ** The displayed time *)

Lemma faceAgrees_all :
  forallb (fun m => forallb (faceAgrees m) (seq 0 60)) (seq 0 100) = true.
Proof. vm_compute. reflexivity. Qed.

Lemma formatTime_face (m sec : Z) :
  0 <= m <= 99 -> 0 <= sec <= 59 -> formatTime m sec = clockFace m sec.
Proof.
  intros Hm Hs. pose proof faceAgrees_all as H.
  rewrite forallb_forall in H.
  specialize (H (Z.to_nat m)). rewrite forallb_forall in H.
  specialize (H ltac:(apply in_seq; lia) (Z.to_nat sec) ltac:(apply in_seq; lia)).
  unfold faceAgrees in H. rewrite !Z2Nat.id in H by lia.
  apply String.eqb_eq. exact H.
Qed.

Lemma digitChar_injective (d d' : Z) :
  0 <= d <= 9 -> 0 <= d' <= 9 -> digitChar d = digitChar d' -> d = d'.
Proof.
  intros H H' E. unfold digitChar in E.
  apply (f_equal nat_of_ascii) in E.
  rewrite !nat_ascii_embedding in E by lia. lia.
Qed.

(** X24.  For minutes from 0 to 99 and seconds from 0 to 59 the
    displayed time is the five characters [MM:SS], both numbers with
    two decimal digits, and two different times are displayed
    differently. *)
Theorem formatTime_clock (m sec : Z) :
  0 <= m <= 99 -> 0 <= sec <= 59 ->
  formatTime m sec = clockFace m sec /\
  String.length (formatTime m sec) = 5%nat /\
  (forall m' sec', 0 <= m' <= 99 -> 0 <= sec' <= 59 ->
     formatTime m' sec' = formatTime m sec -> m' = m /\ sec' = sec).
Proof.
  intros Hm Hs. rewrite (formatTime_face m sec Hm Hs).
  split; [reflexivity|]. split; [reflexivity|].
  intros m' sec' Hm' Hs' E. rewrite (formatTime_face m' sec' Hm' Hs') in E.
  assert (Hdiv : forall x, 0 <= x <= 99 -> 0 <= x / 10 <= 9).
  { intros x Hx. split; [apply Z.div_pos; lia|].
    assert (x / 10 < 10) by (apply Z.div_lt_upper_bound; lia). lia. }
  assert (Hmod : forall x, 0 <= x mod 10 <= 9).
  { intros x. pose proof (Z.mod_pos_bound x 10 ltac:(lia)). lia. }
  unfold clockFace in E. injection E as E1 E2 E3 E4.
  apply digitChar_injective in E1; [|apply Hdiv; lia|apply Hdiv; lia].
  apply digitChar_injective in E2; [|apply Hmod|apply Hmod].
  apply digitChar_injective in E3; [|apply Hdiv; lia|apply Hdiv; lia].
  apply digitChar_injective in E4; [|apply Hmod|apply Hmod].
  rewrite (Z.div_mod m 10), (Z.div_mod m' 10), (Z.div_mod sec 10),
          (Z.div_mod sec' 10) by lia.
  rewrite E1, E2, E3, E4. split; reflexivity.
Qed.

Lemma formatTime_clock_witness :
  formatTime 25 0 = "25:00" /\ formatTime 4 59 = "04:59" /\
  String.length (formatTime 0 7) = 5%nat.
Proof.
  destruct (formatTime_clock 25 0) as (H1 & _); [lia|lia|].
  destruct (formatTime_clock 4 59) as (H2 & _); [lia|lia|].
  destruct (formatTime_clock 0 7) as (_ & H3 & _); [lia|lia|].
  split; [rewrite H1; reflexivity|]. split; [rewrite H2; reflexivity|exact H3].
Defined.

(* ================================================================= *)
(** ** The current track after a removal *)

Lemma filter_absent_id (id : string) (l : list YouTubeTrack) :
  ~ In id (map track_id l) ->
  filter (fun track => negb (String.eqb (track_id track) id)) l = l.
Proof.
  induction l as [|t l IH]; intros H; simpl; [reflexivity|].
  simpl in H. destruct (String.eqb (track_id t) id) eqn:E.
  - apply String.eqb_eq in E. tauto.
  - simpl. rewrite IH by tauto. reflexivity.
Qed.

(** X25.  Removing the one track with a given id from a playlist keeps
    the other tracks in order.  When the current index is the last one
    it goes back to 0, whichever track is removed.  Otherwise the index
    keeps its number: it still names the same track when the removed
    track came after it, and it names the track that followed the
    current one when the removed track was the current one or came
    before it. *)
Theorem removeTrack_current_track (a : App) (before after : list YouTubeTrack)
    (t : YouTubeTrack) :
  youtubePlaylist a = before ++ t :: after ->
  ~ In (track_id t) (map track_id (before ++ after)) ->
  0 <= currentTrack a < Z.of_nat (List.length (youtubePlaylist a)) ->
  let a' := removeTrack (track_id t) a in
  let last := Z.of_nat (List.length (youtubePlaylist a)) - 1 in
  youtubePlaylist a' = before ++ after /\
  (currentTrack a = last -> currentTrack a' = 0) /\
  (currentTrack a < last ->
     currentTrack a' = currentTrack a /\
     (currentTrack a < Z.of_nat (List.length before) ->
        trackAt (youtubePlaylist a') (currentTrack a') =
          trackAt (youtubePlaylist a) (currentTrack a)) /\
     (Z.of_nat (List.length before) <= currentTrack a ->
        trackAt (youtubePlaylist a') (currentTrack a') =
          trackAt (youtubePlaylist a) (currentTrack a + 1))).
Proof.
  intros Hpl Hnin Hc a' last.
  assert (Hf : youtubePlaylist a' = before ++ after).
  { subst a'. unfold removeTrack.
    assert (E : filter (fun track => negb (String.eqb (track_id track) (track_id t)))
                       (youtubePlaylist a) = before ++ after).
    { rewrite Hpl, filter_app. cbn [filter]. rewrite String.eqb_refl. cbn [negb].
      rewrite map_app, in_app_iff in Hnin.
      rewrite !filter_absent_id by tauto. reflexivity. }
    destruct (_ <=? 1); [|destruct (_ >=? _)]; project; exact E. }
  assert (Hlen : Z.of_nat (List.length (youtubePlaylist a)) =
                 Z.of_nat (List.length before) + 1 + Z.of_nat (List.length after)).
  { rewrite Hpl, length_app. cbn [List.length]. lia. }
  split; [exact Hf|]. split.
  - intros H. subst a' last. unfold removeTrack.
    destruct (_ <=? 1); [reflexivity|].
    destruct (_ >=? _) eqn:E; [reflexivity|].
    rewrite Z.geb_leb in E. apply Z.leb_gt in E. lia.
  - intros H.
    assert (Hsame : currentTrack a' = currentTrack a).
    { subst a' last. unfold removeTrack.
      destruct (_ <=? 1) eqn:E1; [apply Z.leb_le in E1; lia|].
      destruct (_ >=? _) eqn:E2; [|reflexivity].
      rewrite Z.geb_leb in E2. apply Z.leb_le in E2. lia. }
    split; [exact Hsame|]. rewrite Hsame, Hf, Hpl. unfold trackAt.
    destruct (currentTrack a <? 0) eqn:E0; [apply Z.ltb_lt in E0; lia|].
    destruct (currentTrack a + 1 <? 0) eqn:E1; [apply Z.ltb_lt in E1; lia|].
    split; intros Hb.
    + rewrite !nth_error_app1 by lia. reflexivity.
    + rewrite !nth_error_app2 by lia.
      replace (Z.to_nat (currentTrack a + 1) - List.length before)%nat
        with (S (Z.to_nat (currentTrack a) - List.length before)) by lia.
      reflexivity.
Qed.

Lemma removeTrack_current_track_witness :
  let playing2of3 := setCurrentTrack 1 threeTracks in
  trackAt (youtubePlaylist playing2of3) 1 =
    Some (abc123Track "2" "https://www.youtube.com/embed/abc123") /\
  currentTrack (removeTrack "1" playing2of3) = 1 /\
  trackAt (youtubePlaylist (removeTrack "1" playing2of3)) 1 =
    Some (abc123Track "3" "https://www.youtube.com/watch?v=abc123&t=5").
Proof.
  cbv zeta.
  destruct (removeTrack_current_track (setCurrentTrack 1 threeTracks) []
              [abc123Track "2" "https://www.youtube.com/embed/abc123";
               abc123Track "3" "https://www.youtube.com/watch?v=abc123&t=5"]
              (abc123Track "1" "https://youtu.be/abc123"))
    as (_ & _ & H).
  - reflexivity.
  - simpl. intuition discriminate.
  - simpl. lia.
  - destruct (H ltac:(simpl; lia)) as (H1 & _ & H2).
    split; [reflexivity|]. split; [exact H1|].
    etransitivity; [|exact (H2 ltac:(simpl; lia))]. reflexivity.
Defined.

(* ================================================================= *)
(** ** Resetting *)

(** X26.  Resetting a running session at any moment before it ends
    gives the state that resetting it before its first second gives:
    the full configured duration of its kind, the timer stopped, kind,
    task reference and registry as they were.  Resetting twice is
    resetting once. *)
Theorem reset_forgets_elapsed_time (s : Settings) (granted : bool) (a : App)
    (k : nat) :
  isActive (timer a) = true -> nonNegative (timer a) ->
  Z.of_nat k <= remainingSeconds (timer a) ->
  resetTimer (intervalTicks k s granted a) = resetTimer a /\
  timer (resetTimer a) =
    mkTimer (if isBreak (timer a) then breakDuration (settings a)
             else workDuration (settings a))
            0 false (isBreak (timer a)) (currentTaskId (timer a)) /\
  resetTimer (resetTimer a) = resetTimer a.
Proof.
  intros Ha Hn Hk.
  destruct (countdown_steps s granted k a Ha Hn Hk)
    as (H1 & H2 & H3 & H4 & _).
  cbv zeta in *. split; [|split; reflexivity].
  rewrite (intervalTicks_frame s granted k a).
  set (ak := intervalTicks k s granted a) in *.
  unfold resetTimer. project. rewrite H1, H3, H4.
  unfold setTimer, setTodos. cbn. destruct a; reflexivity.
Qed.

Lemma reset_forgets_elapsed_time_witness :
  timer (resetTimer (intervalTicks 700 initialSettings true runningApp)) =
    mkTimer 25 0 false false (Some "1700000000000").
Proof.
  destruct (reset_forgets_elapsed_time initialSettings true runningApp 700)
    as (H & _ & _);
    [reflexivity | unfold nonNegative; simpl; lia | vm_compute; discriminate |].
  rewrite H. reflexivity.
Defined.
